(** * EEE Helper CLI: input validation and safe arithmetic

    A shallow embedding of [src/funcs.c] and [src/main.c], and the
    properties of its strict parsers, prompt loops, guards and main loop.

    Conventions of the embedding.
    - A C string is a [string] without NUL; what [fgets] stored is cut at
      the first NUL before it is used, as every [str*] function does.
    - [double] is IEEE 754 binary64, modelled by the kernel's primitive
      [float]; every operator is evaluated in double precision, round to
      nearest even, in the order the source's parentheses and C's
      left-associativity give (no contraction to fused multiply-add).
    - [long] is 64 bits and [int] is 32 bits (the LP64 data model of
      Linux and macOS); a [long] converted to [int] wraps modulo 2^32.
    - [strtol] and [strtod] are the C library's: they are modelled from
      ISO C (7.20.1.4 and 7.20.1.3), in the "C" locale the program runs
      in; where ISO C leaves the behaviour to the implementation ([errno]
      on underflow) [strtod] does as glibc on x86-64 does.
    - [exp] and [log] are libm's and stay parameters of the RC module;
      [sqrt] and [fabs] are the IEEE operations.
    - A piece of code is a function of the state it starts in (the input
      left to read and the log file) to the way it ends, the state it
      leaves and the [printf] calls it made. How [printf] renders its
      arguments is not modelled: a call is its format and its arguments,
      and the 256-byte buffer that [log_printf] renders a record into is
      the call that filled it with the size of the buffer.
    - A loop whose number of turns depends on the input takes the number
      of turns it may make ([fuel]); the functions of the source are given
      one turn more than the input has characters, which is shown to be
      enough ([read_int_total], [read_double_total], [clean_sum_inputs],
      [wait_back_cases]). Only [main], which may run for ever, keeps the
      number of turns as a parameter. *)

From Stdlib Require Import ZArith Bool List Ascii String Lia.
From Stdlib Require Import Floats.
Import ListNotations.

Local Open Scope string_scope.
Local Open Scope Z_scope.

(* Decimal constants are written as in the source and rounded to the
   nearest double, as a C compiler does. *)
Set Warnings "-inexact-float".

(** ** Characters *)

Definition code (c : ascii) : Z := Z.of_N (N_of_ascii c).

Definition chr (n : Z) : ascii := ascii_of_N (Z.to_N n).

Definition TAB : ascii := chr 9.
Definition LF : ascii := chr 10.

(** [isspace] in the "C" locale: space, \t, \n, \v, \f, \r. *)
Definition isspace (c : ascii) : bool :=
  (code c =? 32) || ((9 <=? code c) && (code c <=? 13)).

(** The test of the source's trailing loop: [*end == ' ' || *end == '\t']. *)
Definition is_blank (c : ascii) : bool :=
  (code c =? 32) || (code c =? 9).

(** Value of a character as a digit of any base up to 36. *)
Definition digit_val (c : ascii) : option Z :=
  let n := code c in
  if (48 <=? n) && (n <=? 57) then Some (n - 48)
  else if (97 <=? n) && (n <=? 122) then Some (n - 87)
  else if (65 <=? n) && (n <=? 90) then Some (n - 55)
  else None.

Definition digit_in (base : Z) (c : ascii) : option Z :=
  match digit_val c with
  | Some d => if d <? base then Some d else None
  | None => None
  end.

Definition to_lower (c : ascii) : ascii :=
  if (65 <=? code c) && (code c <=? 90) then chr (code c + 32) else c.

(** ** Strings *)

Fixpoint all_chars (p : ascii -> bool) (s : string) : bool :=
  match s with
  | EmptyString => true
  | String c s' => p c && all_chars p s'
  end.

(** [while (p( *end)) end++;] : the suffix left where the loop stops. *)
Fixpoint skip_while (p : ascii -> bool) (s : string) : string :=
  match s with
  | EmptyString => EmptyString
  | String c s' => if p c then skip_while p s' else s
  end.

(** [s[strcspn(s, reject)] = 0] : the prefix before the first rejected char. *)
Fixpoint take_until (p : ascii -> bool) (s : string) : string :=
  match s with
  | EmptyString => EmptyString
  | String c s' => if p c then EmptyString else String c (take_until p s')
  end.

Definition is_empty (s : string) : bool :=
  match s with EmptyString => true | _ => false end.

(** ** Integer types (LP64) *)

Definition LONG_MAX : Z := 2 ^ 63 - 1.
Definition LONG_MIN : Z := - 2 ^ 63.
Definition INT_MAX : Z := 2 ^ 31 - 1.
Definition INT_MIN : Z := - 2 ^ 31.

(** The conversion [(int)v] of a [long]. *)
Definition int_of_long (v : Z) : Z :=
  (v + 2 ^ 31) mod 2 ^ 32 - 2 ^ 31.

Definition in_int_range (v : Z) : bool :=
  (INT_MIN <=? v) && (v <=? INT_MAX).

(** ** strtol *)

Module Strtol.

(** What a call leaves behind: the value returned, whether [errno] was
    set to [ERANGE], how many characters [*endptr] is past [s], and the
    string [*endptr] points to. *)
Record result := mk {
  value : Z;
  erange : bool;
  consumed : nat;
  rest : string
}.

(** The digits of [base] at the head of [s]: their value, how many they
    are, and what follows them. *)
Fixpoint digits (base : Z) (s : string) (acc : Z) (n : nat)
  : Z * nat * string :=
  match s with
  | EmptyString => (acc, n, s)
  | String c s' =>
      match digit_in base c with
      | Some d => digits base s' (acc * base + d) (S n)
      | None => (acc, n, s)
      end
  end.

Fixpoint spaces (s : string) (n : nat) : nat * string :=
  match s with
  | EmptyString => (n, s)
  | String c s' => if isspace c then spaces s' (S n) else (n, s)
  end.

(** An optional sign: whether it is a minus, and its length. *)
Definition sign (s : string) : bool * nat * string :=
  match s with
  | String "-" s' => (true, 1%nat, s')
  | String "+" s' => (false, 1%nat, s')
  | _ => (false, 0%nat, s)
  end.

(** The prefix "0x" or "0X", taken only when a hexadecimal digit follows. *)
Definition hex_prefix (s : string) : option string :=
  match s with
  | String "0" (String x (String h s')) =>
      if (code (to_lower x) =? 120)
      then match digit_in 16 h with
           | Some _ => Some (String h s')
           | None => None
           end
      else None
  | _ => None
  end.

Definition starts_with_zero (s : string) : bool :=
  match s with String "0" _ => true | _ => false end.

Definition clamp (neg : bool) (m : Z) : Z * bool :=
  let v := if neg then - m else m in
  if v >? LONG_MAX then (LONG_MAX, true)
  else if v <? LONG_MIN then (LONG_MIN, true)
  else (v, false).

Definition no_conversion (s : string) : result :=
  mk 0 false 0 s.

Definition strtol (s : string) (base : Z) : result :=
  if negb ((base =? 0) || ((2 <=? base) && (base <=? 36)))
  then no_conversion s
  else
    let '(nsp, s1) := spaces s 0 in
    let '(neg, nsg, s2) := sign s1 in
    let '(b, npre, s3) :=
      match hex_prefix s2 with
      | Some s3 =>
          if (base =? 0) || (base =? 16) then (16, 2%nat, s3)
          else (base, 0%nat, s2)
      | None =>
          if base =? 0
          then (if starts_with_zero s2 then (8, 0%nat, s2) else (10, 0%nat, s2))
          else (base, 0%nat, s2)
      end in
    let '(m, nd, s4) := digits b s3 0 0 in
    match nd with
    | O => no_conversion s
    | _ =>
        let '(v, e) := clamp neg m in
        mk v e (nsp + nsg + npre + nd) s4
    end.

End Strtol.

(** ** parse_long (funcs.c, lines 77-94) *)

Definition parse_long (s : string) (base : Z) : option Z :=
  if is_empty s then None
  else
    let r := Strtol.strtol s base in
    if Strtol.erange r then None
    else if Nat.eqb (Strtol.consumed r) 0 then None
    else
      let e := skip_while is_blank (Strtol.rest r) in
      if negb (is_empty e) then None
      else Some (Strtol.value r).

(** ** strtod *)

Definition double := float.

Module Strtod.

Record result := mk {
  value : double;
  erange : bool;
  consumed : nat;
  rest : string
}.

Definition no_conversion (s : string) : result :=
  mk 0%float false 0 s.

(** A nonempty sequence of digits of [base] optionally containing the
    radix character: the digits read as one integer, how many of them
    follow the radix character, the length of the sequence, what follows. *)
Definition mantissa (base : Z) (s : string)
  : option (Z * nat * nat * string) :=
  let '(m1, n1, s1) := Strtol.digits base s 0 0 in
  match s1 with
  | String "." s2 =>
      let '(m2, n2, s3) := Strtol.digits base s2 m1 0 in
      if Nat.eqb (n1 + n2) 0 then None
      else Some (m2, n2, (n1 + 1 + n2)%nat, s3)
  | _ =>
      if Nat.eqb n1 0 then None else Some (m1, 0%nat, n1, s1)
  end.

(** An optional exponent part: the marker ([e] or [p], either case), an
    optional sign and a nonempty sequence of decimal digits. *)
Definition exponent (marker : ascii) (s : string) : Z * nat * string :=
  match s with
  | String c s1 =>
      if Ascii.eqb (to_lower c) marker then
        let '(neg, nsg, s2) := Strtol.sign s1 in
        let '(e, nd, s3) := Strtol.digits 10 s2 0 0 in
        match nd with
        | O => (0, 0%nat, s)
        | _ => (if neg then - e else e, (1 + nsg + nd)%nat, s3)
        end
      else (0, 0%nat, s)
  | EmptyString => (0, 0%nat, s)
  end.

(** [s] without the prefix [p], compared ignoring case ([p] in lower case). *)
Fixpoint strip_ci (p s : string) : option string :=
  match p, s with
  | EmptyString, _ => Some s
  | String a p', String c s' =>
      if Ascii.eqb a (to_lower c) then strip_ci p' s' else None
  | String _ _, EmptyString => None
  end.

Definition is_nchar (c : ascii) : bool :=
  match digit_val c with
  | Some _ => true
  | None => code c =? 95
  end.

(** The optional [(n-char-sequence)] after NAN: its length, what follows. *)
Definition nan_payload (s : string) : nat * string :=
  match s with
  | String "(" s1 =>
      let s2 := skip_while is_nchar s1 in
      match s2 with
      | String ")" s3 =>
          ((String.length s - String.length s3)%nat, s3)
      | _ => (0%nat, s)
      end
  | _ => (0%nat, s)
  end.

(** The binary64 number nearest to [n / d] (ties to even), for positive
    [n] and [d]: the quotient is taken with 66 significant bits at least
    and a sticky bit for the remainder, then rounded once. *)
Definition round_ratio (neg : bool) (n d : Z) : spec_float :=
  let k := Z.max 0 (Z.log2 d + 66 - Z.log2 n) in
  let '(q, r) := Z.div_eucl (n * 2 ^ k) d in
  let m := 2 * q + (if r =? 0 then 0 else 1) in
  binary_normalize prec emax (if neg then - m else m) (- (k + 1)) false.

(** The exponent of the leading bit of [n / d], for positive [n] and
    [d]: [2 ^ e <= n / d < 2 ^ (e + 1)]. *)
Definition ilog2 (n d : Z) : Z :=
  let e := Z.log2 n - Z.log2 d in
  if n * 2 ^ Z.max 0 (- e) <? d * 2 ^ Z.max 0 e then e - 1 else e.

(** The integer part of [n / d * 2 ^ k], and whether a fraction is left. *)
Definition scaled (n d k : Z) : Z * bool :=
  let '(q, r) :=
    if 0 <=? k then Z.div_eucl (n * 2 ^ k) d
    else Z.div_eucl n (d * 2 ^ (- k)) in
  (q, negb (r =? 0)).

(** Rounding to nearest, ties to even: whether the magnitude goes up,
    from the parity of its last kept bit, the first bit dropped and
    whether a bit after that one is set. *)
Definition round_away (odd half more : bool) : bool :=
  half && (more || odd).

(** glibc's [round_and_return] (stdlib/strtod_l.c) on a number below the
    normal range, [2 ^ -1075 <= n / d < 2 ^ -1022], written as its first
    53 bits [m53], at exponent [e], the next bit [r] and whether a bit
    after that one is set, [s]. The mantissa is shifted to the exponent of
    the subnormal numbers and rounded there, and [ERANGE] is set when the
    result is tiny and inexact:
    - tiny is judged after rounding (x86-64): the number is not tiny when
      rounded to 53 bits at its own exponent it reaches [2 ^ -1022];
    - [r] is not looked at again after the shift: a number whose bits end
      with [r] is rounded, and judged exact or not, as if [r] were 0;
    - of a decimal number the digits after the 1076th decimal place are
      not converted, and are remembered as bits after [r] when one of them
      is not 0 ([cut]); a hexadecimal number is converted whole. *)
Definition round_subnormal (neg cut : bool) (m53 e : Z) (r s : bool)
  : double * bool :=
  let shift := - 1022 - e in
  let tiny :=
    negb ((shift =? 1) && round_away (Z.odd m53) r (s || cut)
          && (m53 + 1 =? 2 ^ 53)) in
  let half := Z.testbit m53 (shift - 1) in
  let more := s || cut || negb (m53 mod 2 ^ (shift - 1) =? 0) in
  let m := Z.shiftr m53 shift in
  let m' := if round_away (Z.odd m) half more then m + 1 else m in
  (SF2Prim (binary_normalize prec emax (if neg then - m' else m')
                             (- 1074) neg),
   tiny && (half || more)).

(** Conversion of the nonzero [n / d], read in hexadecimal ([hex]) or in
    decimal: the value returned, and whether [errno] is set to [ERANGE].
    In the normal range the result is the nearest binary64 number;
    overflow returns [HUGE_VAL] with [ERANGE]; a number below
    [2 ^ -1075] returns zero with [ERANGE]; between the two glibc does as
    [round_subnormal] says (ISO C leaves [ERANGE] on underflow to the
    implementation). *)
Definition convert (hex neg : bool) (n d : Z) : double * bool :=
  let e := ilog2 n d in
  if - 1022 <=? e then
    let f := round_ratio neg n d in
    (SF2Prim f, match f with S754_infinity _ => true | _ => false end)
  else if e <? - 1075 then ((if neg then neg_zero else zero), true)
  else
    let '(m54, s) := scaled n d (53 - e) in
    let cut := negb hex && snd (scaled (n * 10 ^ 1076) d 0) in
    round_subnormal neg cut (Z.shiftr m54 1) e (Z.odd m54) s.

Definition overflow (neg : bool) : double * bool :=
  ((if neg then neg_infinity else infinity), true).

Definition underflow (neg : bool) : double * bool :=
  ((if neg then neg_zero else zero), true).

(** [m * 10 ^ e]. Beyond the exponents tested first the result is out of
    range whatever [m > 0] is, and the power is not computed. *)
Definition decimal (neg : bool) (m e : Z) : double * bool :=
  if m =? 0 then ((if neg then neg_zero else zero), false)
  else if 400 <? e then overflow neg
  else if e + ((Z.log2 m + 1) / 3 + 1) <? - 400 then underflow neg
  else if 0 <=? e then convert false neg (m * 10 ^ e) 1
  else convert false neg m (10 ^ (- e)).

(** [m * 2 ^ e]. *)
Definition binary (neg : bool) (m e : Z) : double * bool :=
  if m =? 0 then ((if neg then neg_zero else zero), false)
  else if 1100 <? e then overflow neg
  else if e + Z.log2 m + 1 <? - 1100 then underflow neg
  else if 0 <=? e then convert true neg (m * 2 ^ e) 1
  else convert true neg m (2 ^ (- e)).

Definition strtod (s : string) : result :=
  let '(nsp, s1) := Strtol.spaces s 0 in
  let '(neg, nsg, s2) := Strtol.sign s1 in
  let lead := (nsp + nsg)%nat in
  match strip_ci "infinity" s2, strip_ci "inf" s2, strip_ci "nan" s2 with
  | Some s3, _, _ =>
      mk (if neg then neg_infinity else infinity) false (lead + 8) s3
  | None, Some s3, _ =>
      mk (if neg then neg_infinity else infinity) false (lead + 3) s3
  | None, None, Some s3 =>
      let '(np, s4) := nan_payload s3 in
      mk nan false (lead + 3 + np) s4
  | None, None, None =>
      let hex :=
        match strip_ci "0x" s2 with
        | Some s3 => mantissa 16 s3
        | None => None
        end in
      match hex with
      | Some (m, nf, nm, s4) =>
          let '(e, ne, s5) := exponent "p" s4 in
          let '(v, r) := binary neg m (e - 4 * Z.of_nat nf) in
          mk v r (lead + 2 + nm + ne) s5
      | None =>
          match mantissa 10 s2 with
          | Some (m, nf, nm, s4) =>
              let '(e, ne, s5) := exponent "e" s4 in
              let '(v, r) := decimal neg m (e - Z.of_nat nf) in
              mk v r (lead + nm + ne) s5
          | None => no_conversion s
          end
      end
  end.

End Strtod.

(** ** parse_double (funcs.c, lines 98-115) *)

Definition parse_double (s : string) : option double :=
  if is_empty s then None
  else
    let r := Strtod.strtod s in
    if Strtod.erange r then None
    else if Nat.eqb (Strtod.consumed r) 0 then None
    else
      let e := skip_while is_blank (Strtod.rest r) in
      if negb (is_empty e) then None
      else Some (Strtod.value r).

(** ** The terminal and the log file *)

(** An argument of a [printf]-style call. [ABuf size f a] is a buffer
    that [vsnprintf(buf, size, f, a...)] filled: it holds the first
    [size - 1] bytes of what [printf(f, a...)] prints. *)
#[local] Unset Elimination Schemes.
Inductive arg :=
| AInt (z : Z)
| ADbl (d : double)
| AStr (s : string)
| ABuf (size : nat) (f : string) (a : list arg).
#[local] Set Elimination Schemes.

(** A [printf]-style call: the format string and its arguments. How the
    C library renders [%.6f] and the like is not part of the model. *)
Record call := Call { fmt : string; args : list arg }.

(** What a piece of code starts from and leaves behind. *)
Record state := State {
  stdin : string;                (* what is left to read *)
  log_file : option (list call); (* eee_log.txt, when it exists: the
                                    [fprintf] calls that wrote it *)
  log_writable : bool            (* whether fopen(LOG_FILE, "a") succeeds *)
}.

(** How a piece of code ends: with a value, by [return;] out of the
    enclosing menu function, by [exit(status)] or [return status] out of
    the process, or not within the steps it was given. *)
Inductive outcome (A : Type) :=
| Val (a : A)
| Return
| Exit (status : Z)
| Fuel.

Arguments Val {A} a.
Arguments Return {A}.
Arguments Exit {A} status.
Arguments Fuel {A}.

(** A piece of code: from the state it starts in, how it ends, the state
    it leaves, and the [printf] calls it made, oldest first. *)
Definition M (A : Type) : Type := state -> outcome A * state * list call.

Definition ret {A} (a : A) : M A := fun s => (Val a, s, []).

Definition bind {A B} (m : M A) (k : A -> M B) : M B :=
  fun s =>
    match m s with
    | (Val a, s1, o1) =>
        match k a s1 with
        | (r, s2, o2) => (r, s2, (o1 ++ o2)%list)
        end
    | (Return, s1, o1) => (Return, s1, o1)
    | (Exit c, s1, o1) => (Exit c, s1, o1)
    | (Fuel, s1, o1) => (Fuel, s1, o1)
    end.

Notation "x <- m ;; k" := (bind m (fun x => k))
  (at level 61, m at next level, right associativity).
Notation "m ;;; k" := (bind m (fun _ => k))
  (at level 61, right associativity).

(** [return;] *)
Definition early_return {A} : M A := fun s => (Return, s, []).

(** [exit(status);], and [return status;] in [main]. *)
Definition exit {A} (status : Z) : M A := fun s => (Exit status, s, []).

(** A loop that was not given the steps to go on. *)
Definition out_of_fuel {A} : M A := fun s => (Fuel, s, []).

(** [if (!m) return;] for an [m] that reports failure by returning 0. *)
Definition require {A} (m : M (option A)) : M A :=
  o <- m ;;
  match o with
  | Some a => ret a
  | None => early_return
  end.

(** A call of a [void] function: its [return;] ends the call only. *)
Definition call_void (m : M unit) : M unit :=
  fun s =>
    match m s with
    | (Return, s', o) => (Val tt, s', o)
    | r => r
    end.

Definition printf (f : string) (a : list arg) : M unit :=
  fun s => (Val tt, s, [Call f a]).

(** The log file after [log_line(line)] (funcs.c, lines 17-24):
    [fprintf(fp, "%s\n", line)] when the file can be opened, and nothing
    otherwise. *)
Definition log_line (line : arg) (s : state) : state :=
  if log_writable s
  then State (stdin s)
             (Some (match log_file s with
                    | Some l => (l ++ [Call "%s\n" [line]])%list
                    | None => [Call "%s\n" [line]]
                    end))
             (log_writable s)
  else s.

(** What [vsnprintf(line, size, fmt, ...)] leaves in [line]. *)
Definition vsnprintf (size : nat) (c : call) : arg :=
  ABuf size (fmt c) (args c).

(** The log file after [log_printf(fmt, ...)] (lines 45-51): the call is
    rendered into [char line[256]], so that its first 255 bytes only are
    given to [log_line]. *)
Definition append_log (c : call) (s : state) : state :=
  log_line (vsnprintf 256 c) s.

(** [log_printf] (funcs.c, lines 43-52). *)
Definition log_printf (f : string) (a : list arg) : M unit :=
  fun s => (Val tt, append_log (Call f a) s, []).

(** [view_log] (funcs.c, lines 26-40). The loop copies the file to the
    terminal, [fgets] taking it in pieces of 255 bytes at most and
    [fputs] printing each: what is printed is what the calls that wrote
    the file printed into it. *)
Definition view_log : M unit :=
  fun s =>
    match log_file s with
    | None => printf "\n--- Saved Log ---\nNo saved calculations yet.\n" [] s
    | Some l => (Val tt, s, Call "\n--- Saved Log ---\n" [] :: l)
    end.

(** ** Reading a line *)

(** What [fgets] stores from the head of the input when it may store [n]
    characters: it stops after a newline, and what it leaves unread. *)
Fixpoint fgets_take (n : nat) (s : string) : string * string :=
  match n, s with
  | O, _ => (EmptyString, s)
  | S _, EmptyString => (EmptyString, EmptyString)
  | S n', String c s' =>
      if Ascii.eqb c LF then (String c EmptyString, s')
      else let '(l, r) := fgets_take n' s' in (String c l, r)
  end.

(** [fgets(buf, size, stdin)]: [None] at end of input. *)
Definition fgets (size : nat) : M (option string) :=
  fun s =>
    match stdin s with
    | EmptyString => (Val None, s, [])
    | _ =>
        let '(buf, rest) := fgets_take (size - 1) (stdin s) in
        (Val (Some buf), State rest (log_file s) (log_writable s), [])
    end.

Definition is_nul (c : ascii) : bool := code c =? 0.

(** The buffer as a C string: what precedes the first NUL. *)
Definition cstr (buf : string) : string := take_until is_nul buf.

Definition is_eol (c : ascii) : bool := (code c =? 13) || (code c =? 10).

(** [trim_newline] (funcs.c, lines 59-63). *)
Definition trim_newline (s : string) : string := take_until is_eol s.

(** [if (prompt) printf("%s", prompt);] *)
Definition prompt_calls (prompt : option string) : list call :=
  match prompt with
  | Some p => [Call "%s" [AStr p]]
  | None => []
  end.

(** [read_line] (funcs.c, lines 67-73). *)
Definition read_line (prompt : option string) (size : nat) : M (option string) :=
  (fun s => (Val tt, s, prompt_calls prompt)) ;;;
  l <- fgets size ;;
  match l with
  | None => ret None
  | Some buf => ret (Some (trim_newline (cstr buf)))
  end.

(** [read_int] (funcs.c, lines 118-132). The [for (;;)] loop runs at most
    once per character of input: [fuel] counts its iterations. *)
Fixpoint read_int_loop (fuel : nat) (prompt : option string) : M (option Z) :=
  match fuel with
  | O => out_of_fuel
  | S fuel' =>
      l <- read_line prompt 128 ;;
      match l with
      | None => ret None
      | Some buf =>
          match parse_long buf 10 with
          | Some v => ret (Some (int_of_long v))
          | None =>
              printf "Invalid integer. Try again.\n" [] ;;;
              read_int_loop fuel' prompt
          end
      end
  end.

Definition read_int (prompt : option string) : M (option Z) :=
  fun s => read_int_loop (S (String.length (stdin s))) prompt s.

(** [read_double] (funcs.c, lines 135-149). *)
Fixpoint read_double_loop (fuel : nat) (prompt : option string)
  : M (option double) :=
  match fuel with
  | O => out_of_fuel
  | S fuel' =>
      l <- read_line prompt 128 ;;
      match l with
      | None => ret None
      | Some buf =>
          match parse_double buf with
          | Some v => ret (Some v)
          | None =>
              printf "Invalid number. Try again.\n" [] ;;;
              read_double_loop fuel' prompt
          end
      end
  end.

Definition read_double (prompt : option string) : M (option double) :=
  fun s => read_double_loop (S (String.length (stdin s))) prompt s.

(** ** safe_divide (funcs.c, lines 155-164) *)

Definition eps : double := 1e-12%float.

(** The pair is the value returned and what [*out] holds on return. *)
Definition safe_divide (num den : double) : bool * double :=
  let out := 0%float in
  if (abs den <? eps)%float then (false, out)
  else
    let out := (num / den)%float in
    (true, out).

Local Open Scope float_scope.

Definition PI : double := 3.14159265358979323846.

(** [if (!safe_divide(num, den, &q)) { printf(msg); return; }] *)
Definition divide_or (msg : string) (num den : double) : M double :=
  match safe_divide num den with
  | (true, q) => ret q
  | (false, _) => printf msg [] ;;; early_return
  end.

(** [if (c) { printf(msg); return; }] *)
Definition reject_if (c : bool) (msg : string) : M unit :=
  if c then printf msg [] ;;; early_return else ret tt.

Definition ask_int (p : string) : M Z := require (read_int (Some p)).
Definition ask (p : string) : M double := require (read_double (Some p)).

(** ** 1) Voltage divider (funcs.c, lines 168-255)

    Each mode is split in two: the prompts, in [menu_item_1], and what is
    done with the values read, in a definition of its own. *)

Definition vdiv_vout (Vin R1 R2 : double) : M unit :=
  ratio <- divide_or "Error: R1 + R2 cannot be zero (or near zero).\n"
                     R2 (R1 + R2) ;;
  let Vout := Vin * ratio in
  printf "Vout = %.6f V\n" [ADbl Vout] ;;;
  log_printf "Voltage Divider (Vout): Vin=%.6f V, R1=%.6f ohm, R2=%.6f ohm -> Vout=%.6f V"
             [ADbl Vin; ADbl R1; ADbl R2; ADbl Vout].

Definition vdiv_vin (Vout R1 R2 : double) : M unit :=
  frac <- divide_or "Error: R2 cannot be zero (or near zero).\n"
                    (R1 + R2) R2 ;;
  let Vin_ans := Vout * frac in
  printf "Vin = %.6f V\n" [ADbl Vin_ans] ;;;
  log_printf "Voltage Divider (Vin): Vout=%.6f V, R1=%.6f ohm, R2=%.6f ohm -> Vin=%.6f V"
             [ADbl Vout; ADbl R1; ADbl R2; ADbl Vin_ans].

Definition vdiv_r1 (Vin Vout R2 : double) : M unit :=
  Vin_over_Vout <- divide_or "Error: Vout cannot be zero (or near zero).\n"
                             Vin Vout ;;
  let R1_ans := R2 * (Vin_over_Vout - 1.0) in
  printf "R1 = %.6f ohms\n" [ADbl R1_ans] ;;;
  log_printf "Voltage Divider (R1): Vin=%.6f V, Vout=%.6f V, R2=%.6f ohm -> R1=%.6f ohm"
             [ADbl Vin; ADbl Vout; ADbl R2; ADbl R1_ans].

Definition vdiv_r2 (Vin Vout R1 : double) : M unit :=
  frac <- divide_or "Error: Vin must not equal Vout (denominator near zero).\n"
                    Vout (Vin - Vout) ;;
  let R2_ans := R1 * frac in
  printf "R2 = %.6f ohms\n" [ADbl R2_ans] ;;;
  log_printf "Voltage Divider (R2): Vin=%.6f V, Vout=%.6f V, R1=%.6f ohm -> R2=%.6f ohm"
             [ADbl Vin; ADbl Vout; ADbl R1; ADbl R2_ans].

Definition menu_item_1 : M unit :=
  printf "\n--- Voltage Divider ---\n" [] ;;;
  printf "Solve:\n" [] ;;;
  printf "1) Vout given Vin, R1, R2\n" [] ;;;
  printf "2) Vin  given Vout, R1, R2\n" [] ;;;
  printf "3) R1   given Vin, Vout, R2\n" [] ;;;
  printf "4) R2   given Vin, Vout, R1\n" [] ;;;
  mode <- ask_int "Select: " ;;
  if (mode =? 1)%Z then
    Vin <- ask "Vin (V): " ;;
    R1 <- ask "R1 (ohms): " ;;
    R2 <- ask "R2 (ohms): " ;;
    vdiv_vout Vin R1 R2
  else if (mode =? 2)%Z then
    Vout <- ask "Vout (V): " ;;
    R1 <- ask "R1 (ohms): " ;;
    R2 <- ask "R2 (ohms): " ;;
    vdiv_vin Vout R1 R2
  else if (mode =? 3)%Z then
    Vin <- ask "Vin (V): " ;;
    Vout <- ask "Vout (V): " ;;
    R2 <- ask "R2 (ohms): " ;;
    vdiv_r1 Vin Vout R2
  else if (mode =? 4)%Z then
    Vin <- ask "Vin (V): " ;;
    Vout <- ask "Vout (V): " ;;
    R1 <- ask "R1 (ohms): " ;;
    vdiv_r2 Vin Vout R1
  else
    printf "Invalid selection.\n" [].

(** ** 2) Resistor tools (funcs.c, lines 259-388) *)

(** The two [for (int i = 1; i <= last; ++i)] loops of the series modes:
    print the label with [i], read a value, add it. Every iteration reads
    one line at least, which [fuel] counts. *)
Fixpoint sum_loop (fuel : nat) (label : string) (i last : Z) (sum : double)
  : M double :=
  if (last <? i)%Z then ret sum
  else
    match fuel with
    | O => out_of_fuel
    | S fuel' =>
        printf label [AInt i] ;;;
        r <- require (read_double None) ;;
        sum_loop fuel' label (int_of_long (i + 1)) last (sum + r)
    end.

Definition sum_inputs (label : string) (last : Z) : M double :=
  fun s => sum_loop (S (String.length (stdin s))) label 1 last 0.0 s.

Definition series_total : M unit :=
  n <- ask_int "How many resistors? " ;;
  reject_if (n <=? 0)%Z "Count must be positive.\n" ;;;
  sum <- sum_inputs "R%d (ohms): " n ;;
  printf "R_total(series) = %.6f ohms\n" [ADbl sum] ;;;
  log_printf "Resistors Series: n=%d -> Rt=%.6f ohm" [AInt n; ADbl sum].

Definition series_missing : M unit :=
  n <- ask_int "Total number of series resistors n: " ;;
  reject_if (n <? 2)%Z "n must be at least 2.\n" ;;;
  Rt <- ask "Target Rt (ohms): " ;;
  sum_known <- sum_inputs "Known R%d (ohms): " (n - 1) ;;
  let missing := Rt - sum_known in
  printf "Missing resistor = %.6f ohms\n" [ADbl missing] ;;;
  log_printf "Resistors Series Missing: n=%d, Rt=%.6f ohm, sum_known=%.6f ohm -> R_missing=%.6f ohm"
             [AInt n; ADbl Rt; ADbl sum_known; ADbl missing].

(** Lines 336-349. *)
Definition parallel_req (R1 R2 : double) : M unit :=
  if (R1 =? 0.0) || (R2 =? 0.0) then
    printf "Req = 0 ohms (one branch is a short).\n" [] ;;;
    log_printf "Resistors Parallel(2): R1=%.6f ohm, R2=%.6f ohm -> Req=0 (short branch)"
               [ADbl R1; ADbl R2] ;;;
    early_return
  else
    Req <- divide_or "Error: R1 + R2 cannot be zero (or near zero).\n"
                     (R1 * R2) (R1 + R2) ;;
    printf "R_eq(parallel,2) = %.6f ohms\n" [ADbl Req] ;;;
    log_printf "Resistors Parallel(2): R1=%.6f ohm, R2=%.6f ohm -> Req=%.6f ohm"
               [ADbl R1; ADbl R2; ADbl Req].

Definition parallel_r1 (Req R2 : double) : M unit :=
  R1 <- divide_or "Error: R2 must not equal Req (denominator near zero).\n"
                  (Req * R2) (R2 - Req) ;;
  printf "R1 = %.6f ohms\n" [ADbl R1] ;;;
  log_printf "Resistors Parallel(2) solve R1: Req=%.6f ohm, R2=%.6f ohm -> R1=%.6f ohm"
             [ADbl Req; ADbl R2; ADbl R1].

Definition parallel_r2 (Req R1 : double) : M unit :=
  R2 <- divide_or "Error: R1 must not equal Req (denominator near zero).\n"
                  (Req * R1) (R1 - Req) ;;
  printf "R2 = %.6f ohms\n" [ADbl R2] ;;;
  log_printf "Resistors Parallel(2) solve R2: Req=%.6f ohm, R1=%.6f ohm -> R2=%.6f ohm"
             [ADbl Req; ADbl R1; ADbl R2].

Definition menu_item_2 : M unit :=
  printf "\n--- Resistor Tools ---\n" [] ;;;
  printf "1) Series\n" [] ;;;
  printf "2) Parallel (2 resistors)\n" [] ;;;
  group <- ask_int "Select: " ;;
  if (group =? 1)%Z then
    printf "\nSeries modes:\n" [] ;;;
    printf "1) Total Rt given n resistors\n" [] ;;;
    printf "2) Missing resistor given Rt and the other (n-1)\n" [] ;;;
    mode <- ask_int "Select: " ;;
    if (mode =? 1)%Z then series_total
    else if (mode =? 2)%Z then series_missing
    else printf "Invalid selection.\n" []
  else if (group =? 2)%Z then
    printf "\nParallel(2) modes:\n" [] ;;;
    printf "1) Req given R1 and R2\n" [] ;;;
    printf "2) R1  given Req and R2\n" [] ;;;
    printf "3) R2  given Req and R1\n" [] ;;;
    mode <- ask_int "Select: " ;;
    if (mode =? 1)%Z then
      R1 <- ask "R1 (ohms): " ;;
      R2 <- ask "R2 (ohms): " ;;
      parallel_req R1 R2
    else if (mode =? 2)%Z then
      Req <- ask "Req (ohms): " ;;
      R2 <- ask "R2  (ohms): " ;;
      parallel_r1 Req R2
    else if (mode =? 3)%Z then
      Req <- ask "Req (ohms): " ;;
      R1 <- ask "R1  (ohms): " ;;
      parallel_r2 Req R1
    else printf "Invalid selection.\n" []
  else
    printf "Invalid selection.\n" [].

(** ** 3) AC reactance and resonance (funcs.c, lines 392-562) *)

Definition xl_of (f L : double) : M unit :=
  reject_if ((f <=? 0.0) || (L <? 0.0)) "Error: f>0, L>=0.\n" ;;;
  let XL := 2.0 * PI * f * L in
  printf "X_L = %.6f ohms\n" [ADbl XL] ;;;
  log_printf "AC Inductive Reactance: f=%.6f Hz, L=%.9f H -> XL=%.6f ohm"
             [ADbl f; ADbl L; ADbl XL].

Definition l_of_xl (XL f : double) : M unit :=
  reject_if (f <=? 0.0) "Error: f>0.\n" ;;;
  L <- divide_or "Error: invalid denominator.\n" XL (2.0 * PI * f) ;;
  printf "L = %.9f H\n" [ADbl L] ;;;
  log_printf "AC Inductive Reactance solve L: XL=%.6f ohm, f=%.6f Hz -> L=%.9f H"
             [ADbl XL; ADbl f; ADbl L].

Definition f_of_xl (XL L : double) : M unit :=
  reject_if (L <=? 0.0) "Error: L>0.\n" ;;;
  f <- divide_or "Error: invalid denominator.\n" XL (2.0 * PI * L) ;;
  printf "f = %.6f Hz\n" [ADbl f] ;;;
  log_printf "AC Inductive Reactance solve f: XL=%.6f ohm, L=%.9f H -> f=%.6f Hz"
             [ADbl XL; ADbl L; ADbl f].

Definition xc_of (f C : double) : M unit :=
  reject_if ((f <=? 0.0) || (C <=? 0.0)) "Error: f>0, C>0.\n" ;;;
  XC <- divide_or "Error: invalid denominator.\n" 1.0 (2.0 * PI * f * C) ;;
  printf "X_C = %.6f ohms\n" [ADbl XC] ;;;
  log_printf "AC Capacitive Reactance: f=%.6f Hz, C=%.9e F -> XC=%.6f ohm"
             [ADbl f; ADbl C; ADbl XC].

Definition c_of_xc (XC f : double) : M unit :=
  reject_if ((f <=? 0.0) || (XC <=? 0.0)) "Error: f>0, X_C>0.\n" ;;;
  C <- divide_or "Error: invalid denominator.\n" 1.0 (2.0 * PI * f * XC) ;;
  printf "C = %.9e F\n" [ADbl C] ;;;
  log_printf "AC Capacitive Reactance solve C: XC=%.6f ohm, f=%.6f Hz -> C=%.9e F"
             [ADbl XC; ADbl f; ADbl C].

Definition f_of_xc (XC C : double) : M unit :=
  reject_if ((C <=? 0.0) || (XC <=? 0.0)) "Error: C>0, X_C>0.\n" ;;;
  f <- divide_or "Error: invalid denominator.\n" 1.0 (2.0 * PI * C * XC) ;;
  printf "f = %.6f Hz\n" [ADbl f] ;;;
  log_printf "AC Capacitive Reactance solve f: XC=%.6f ohm, C=%.9e F -> f=%.6f Hz"
             [ADbl XC; ADbl C; ADbl f].

Definition f0_of (L C : double) : M unit :=
  reject_if ((L <=? 0.0) || (C <=? 0.0)) "Error: L>0, C>0.\n" ;;;
  f0 <- divide_or "Error: invalid denominator.\n"
                  1.0 (2.0 * PI * sqrt (L * C)) ;;
  printf "f0 = %.6f Hz\n" [ADbl f0] ;;;
  log_printf "Resonance: L=%.9e H, C=%.9e F -> f0=%.6f Hz"
             [ADbl L; ADbl C; ADbl f0].

Definition l_of_f0 (f0 C : double) : M unit :=
  reject_if ((f0 <=? 0.0) || (C <=? 0.0)) "Error: f0>0, C>0.\n" ;;;
  let denom := (2.0 * PI * f0) * (2.0 * PI * f0) * C in
  L <- divide_or "Error: invalid denominator.\n" 1.0 denom ;;
  printf "L = %.9e H\n" [ADbl L] ;;;
  log_printf "Resonance solve L: f0=%.6f Hz, C=%.9e F -> L=%.9e H"
             [ADbl f0; ADbl C; ADbl L].

Definition c_of_f0 (f0 L : double) : M unit :=
  reject_if ((f0 <=? 0.0) || (L <=? 0.0)) "Error: f0>0, L>0.\n" ;;;
  let denom := (2.0 * PI * f0) * (2.0 * PI * f0) * L in
  C <- divide_or "Error: invalid denominator.\n" 1.0 denom ;;
  printf "C = %.9e F\n" [ADbl C] ;;;
  log_printf "Resonance solve C: f0=%.6f Hz, L=%.9e H -> C=%.9e F"
             [ADbl f0; ADbl L; ADbl C].

Definition menu_item_3 : M unit :=
  printf "\n--- AC Reactance & Resonance ---\n" [] ;;;
  printf "1) Inductive Reactance (X_L)\n" [] ;;;
  printf "2) Capacitive Reactance (X_C)\n" [] ;;;
  printf "3) Resonance (f0)\n" [] ;;;
  group <- ask_int "Select: " ;;
  if (group =? 1)%Z then
    printf "\nSolve for:\n" [] ;;;
    printf "1) X_L given f, L\n" [] ;;;
    printf "2) L   given X_L, f\n" [] ;;;
    printf "3) f   given X_L, L\n" [] ;;;
    mode <- ask_int "Select: " ;;
    if (mode =? 1)%Z then
      f <- ask "f (Hz): " ;; L <- ask "L (H): " ;; xl_of f L
    else if (mode =? 2)%Z then
      XL <- ask "X_L (ohms): " ;; f <- ask "f (Hz): " ;; l_of_xl XL f
    else if (mode =? 3)%Z then
      XL <- ask "X_L (ohms): " ;; L <- ask "L (H): " ;; f_of_xl XL L
    else printf "Invalid selection.\n" []
  else if (group =? 2)%Z then
    printf "\nSolve for:\n" [] ;;;
    printf "1) X_C given f, C\n" [] ;;;
    printf "2) C   given X_C, f\n" [] ;;;
    printf "3) f   given X_C, C\n" [] ;;;
    mode <- ask_int "Select: " ;;
    if (mode =? 1)%Z then
      f <- ask "f (Hz): " ;; C <- ask "C (F): " ;; xc_of f C
    else if (mode =? 2)%Z then
      XC <- ask "X_C (ohms): " ;; f <- ask "f (Hz): " ;; c_of_xc XC f
    else if (mode =? 3)%Z then
      XC <- ask "X_C (ohms): " ;; C <- ask "C (F): " ;; f_of_xc XC C
    else printf "Invalid selection.\n" []
  else if (group =? 3)%Z then
    printf "\nSolve for:\n" [] ;;;
    printf "1) f0 given L, C\n" [] ;;;
    printf "2) L  given f0, C\n" [] ;;;
    printf "3) C  given f0, L\n" [] ;;;
    mode <- ask_int "Select: " ;;
    if (mode =? 1)%Z then
      L <- ask "L (H): " ;; C <- ask "C (F): " ;; f0_of L C
    else if (mode =? 2)%Z then
      f0 <- ask "f0 (Hz): " ;; C <- ask "C (F): " ;; l_of_f0 f0 C
    else if (mode =? 3)%Z then
      f0 <- ask "f0 (Hz): " ;; L <- ask "L (H): " ;; c_of_f0 f0 L
    else printf "Invalid selection.\n" []
  else
    printf "Invalid selection.\n" [].

(** ** 4) RC transient (funcs.c, lines 566-684) *)

Section RC.

(** libm's [exp] and [log]. *)
Variables c_exp c_log : double -> double.

(** Mode 1, lines 585-597. *)
Definition rc_forward (R C t : double) : M unit :=
  reject_if ((R <=? 0.0) || (C <=? 0.0)) "Error: R>0, C>0.\n" ;;;
  reject_if (t <? 0.0) "Error: t>=0.\n" ;;;
  let tau := R * C in
  let charge := 100.0 * (1.0 - c_exp (- t / tau)) in
  let discharge := 100.0 * c_exp (- t / tau) in
  printf "Tau = %.6f s\n" [ADbl tau] ;;;
  printf "Charge at t: %.2f%%\n" [ADbl charge] ;;;
  printf "Discharge at t: %.2f%%\n" [ADbl discharge] ;;;
  log_printf "RC Transient: R=%.6f ohm, C=%.9e F, t=%.6f s -> tau=%.6f s, charge=%.2f%%, discharge=%.2f%%"
             [ADbl R; ADbl C; ADbl t; ADbl tau; ADbl charge; ADbl discharge].

(** Mode 2, lines 606-613. *)
Definition rc_solve_t (R C pct : double) : M unit :=
  reject_if ((R <=? 0.0) || (C <=? 0.0)) "Error: R>0, C>0.\n" ;;;
  reject_if ((pct <=? 0.0) || (100.0 <=? pct)) "Error: %% must be in (0,100).\n" ;;;
  let tau := R * C in
  let t_ans := - tau * c_log (1.0 - pct / 100.0) in
  printf "t = %.6f s\n" [ADbl t_ans] ;;;
  log_printf "RC solve t: R=%.6f ohm, C=%.9e F, charge=%.2f%% -> t=%.6f s"
             [ADbl R; ADbl C; ADbl pct; ADbl t_ans].

(** Mode 3, lines 621-631. *)
Definition rc_from_tau (tau t : double) : M unit :=
  reject_if (tau <=? 0.0) "Error: tau>0.\n" ;;;
  reject_if (t <? 0.0) "Error: t>=0.\n" ;;;
  let charge := 100.0 * (1.0 - c_exp (- t / tau)) in
  let discharge := 100.0 * c_exp (- t / tau) in
  printf "Charge at t: %.2f%%\n" [ADbl charge] ;;;
  printf "Discharge at t: %.2f%%\n" [ADbl discharge] ;;;
  log_printf "RC from tau,t: tau=%.6f s, t=%.6f s -> charge=%.2f%%, discharge=%.2f%%"
             [ADbl tau; ADbl t; ADbl charge; ADbl discharge].

(** Mode 4, lines 640-655. *)
Definition rc_solve_c (R pct t : double) : M unit :=
  reject_if (R <=? 0.0) "Error: R>0.\n" ;;;
  reject_if (t <? 0.0) "Error: t>=0.\n" ;;;
  reject_if ((pct <=? 0.0) || (100.0 <=? pct)) "Error: %% must be in (0,100).\n" ;;;
  let ln_arg := 1.0 - pct / 100.0 in
  reject_if (ln_arg <=? 0.0) "Error: invalid ln() domain.\n" ;;;
  let tau := - t / c_log ln_arg in
  C <- divide_or "Error: division by zero.\n" tau R ;;
  printf "C = %.9e F (Tau = %.6f s)\n" [ADbl C; ADbl tau] ;;;
  log_printf "RC solve C: R=%.6f ohm, charge=%.2f%%, t=%.6f s -> C=%.9e F (tau=%.6f s)"
             [ADbl R; ADbl pct; ADbl t; ADbl C; ADbl tau].

(** Mode 5, lines 664-679. *)
Definition rc_solve_r (C pct t : double) : M unit :=
  reject_if (C <=? 0.0) "Error: C>0.\n" ;;;
  reject_if (t <? 0.0) "Error: t>=0.\n" ;;;
  reject_if ((pct <=? 0.0) || (100.0 <=? pct)) "Error: %% must be in (0,100).\n" ;;;
  let ln_arg := 1.0 - pct / 100.0 in
  reject_if (ln_arg <=? 0.0) "Error: invalid ln() domain.\n" ;;;
  let tau := - t / c_log ln_arg in
  R <- divide_or "Error: division by zero.\n" tau C ;;
  printf "R = %.6f ohms (Tau = %.6f s)\n" [ADbl R; ADbl tau] ;;;
  log_printf "RC solve R: C=%.9e F, charge=%.2f%%, t=%.6f s -> R=%.6f ohm (tau=%.6f s)"
             [ADbl C; ADbl pct; ADbl t; ADbl R; ADbl tau].

Definition menu_item_4 : M unit :=
  printf "\n--- RC Transient Calculator ---\n" [] ;;;
  printf "1) Given R, C, t  -> tau, %%charge, %%discharge\n" [] ;;;
  printf "2) Given R, C, %%charge -> t\n" [] ;;;
  printf "3) Given tau, t   -> %%charge, %%discharge\n" [] ;;;
  printf "4) Given R, %%charge, t -> C\n" [] ;;;
  printf "5) Given C, %%charge, t -> R\n" [] ;;;
  mode <- ask_int "Select: " ;;
  if (mode =? 1)%Z then
    R <- ask "R (ohms): " ;; C <- ask "C (F): " ;; t <- ask "t (s): " ;;
    rc_forward R C t
  else if (mode =? 2)%Z then
    R <- ask "R (ohms): " ;; C <- ask "C (F): " ;;
    pct <- ask "Target charge (%): " ;;
    rc_solve_t R C pct
  else if (mode =? 3)%Z then
    tau <- ask "Tau (s): " ;; t <- ask "t (s): " ;;
    rc_from_tau tau t
  else if (mode =? 4)%Z then
    R <- ask "R (ohms): " ;; pct <- ask "Target charge (%): " ;;
    t <- ask "t (s): " ;;
    rc_solve_c R pct t
  else if (mode =? 5)%Z then
    C <- ask "C (F): " ;; pct <- ask "Target charge (%): " ;;
    t <- ask "t (s): " ;;
    rc_solve_r C pct t
  else
    printf "Invalid selection.\n" [].

End RC.

(** ** 5) Power (funcs.c, lines 688-743) *)

Definition power_p (V I : double) : M unit :=
  let P := V * I in
  printf "P = %.6f W\n" [ADbl P] ;;;
  log_printf "Power: V=%.6f V, I=%.6f A -> P=%.6f W" [ADbl V; ADbl I; ADbl P].

Definition power_v (P I : double) : M unit :=
  V <- divide_or "Error: I cannot be zero (or near zero).\n" P I ;;
  printf "V = %.6f V\n" [ADbl V] ;;;
  log_printf "Power solve V: P=%.6f W, I=%.6f A -> V=%.6f V"
             [ADbl P; ADbl I; ADbl V].

Definition power_i (P V : double) : M unit :=
  I <- divide_or "Error: V cannot be zero (or near zero).\n" P V ;;
  printf "I = %.6f A\n" [ADbl I] ;;;
  log_printf "Power solve I: P=%.6f W, V=%.6f V -> I=%.6f A"
             [ADbl P; ADbl V; ADbl I].

Definition menu_item_5 : M unit :=
  printf "\n--- Power Equation ---\n" [] ;;;
  printf "Choose using P = V × I:\n" [] ;;;
  printf "1) Power  (P)  given V and I\n" [] ;;;
  printf "2) Voltage (V) given P and I\n" [] ;;;
  printf "3) Current (I) given P and V\n" [] ;;;
  mode <- ask_int "Select: " ;;
  if (mode =? 1)%Z then
    V <- ask "V (volts): " ;; I <- ask "I (amps):  " ;; power_p V I
  else if (mode =? 2)%Z then
    P <- ask "P (watts): " ;; I <- ask "I (amps):  " ;; power_v P I
  else if (mode =? 3)%Z then
    P <- ask "P (watts): " ;; V <- ask "V (volts): " ;; power_i P V
  else
    printf "Invalid selection.\n" [].

Local Close Scope float_scope.

(** ** The main menu (main.c) *)

Section Main.

Variables c_exp c_log : double -> double.

(** [print_menu] (main.c, lines 39-50). *)
Definition print_menu : M unit :=
  printf "\n====== EEE Helper CLI ======\n" [] ;;;
  printf "1) Voltage divider (Vout)\n" [] ;;;
  printf "2) Resistor tools (series / parallel-2)\n" [] ;;;
  printf "3) AC reactance & resonance\n" [] ;;;
  printf "4) RC transient (tau / %%charge / %%discharge)\n" [] ;;;
  printf "5) Power (P = V * I)\n" [] ;;;
  printf "6) View saved log\n" [] ;;;
  printf "7) Quit\n" [] ;;;
  printf "Select: " [].

(** What [get_choice] makes of the line [fgets] stored (lines 60-68). *)
Definition choice_of_line (buf : string) : Z :=
  let r := Strtol.strtol buf 10 in
  if Strtol.erange r then -1
  else if Nat.eqb (Strtol.consumed r) 0 then -1
  else
    match skip_while is_blank (Strtol.rest r) with
    | EmptyString => int_of_long (Strtol.value r)
    | String c _ =>
        if Ascii.eqb c LF then int_of_long (Strtol.value r) else -1
    end.

(** [get_choice] (main.c, lines 52-69). *)
Definition get_choice : M Z :=
  l <- fgets 64 ;;
  match l with
  | None => ret (-1)
  | Some buf => ret (choice_of_line (cstr buf))
  end.

Definition is_back (buf : string) : bool :=
  match buf with
  | String c EmptyString => Ascii.eqb c "b" || Ascii.eqb c "B"
  | _ => false
  end.

(** [wait_back] (main.c, lines 71-87); [fuel] counts the lines read. *)
Fixpoint wait_back_loop (fuel : nat) : M unit :=
  match fuel with
  | O => out_of_fuel
  | S fuel' =>
      printf "\nEnter 'b' to go back to the main menu: " [] ;;;
      l <- fgets 64 ;;
      match l with
      | None => printf "Input error. Exiting.\n" [] ;;; exit 1
      | Some buf =>
          if is_back (take_until is_eol (cstr buf)) then ret tt
          else wait_back_loop fuel'
      end
  end.

Definition wait_back : M unit :=
  fun s => wait_back_loop (S (String.length (stdin s))) s.

(** One turn of the [for (;;)] loop of [main] (lines 18-35): [Val tt]
    when the loop goes round again, [Exit] when the process ends. *)
Definition main_iter : M unit :=
  print_menu ;;;
  c <- get_choice ;;
  if (c =? 1)%Z then call_void menu_item_1 ;;; wait_back
  else if (c =? 2)%Z then call_void menu_item_2 ;;; wait_back
  else if (c =? 3)%Z then call_void menu_item_3 ;;; wait_back
  else if (c =? 4)%Z then call_void (menu_item_4 c_exp c_log) ;;; wait_back
  else if (c =? 5)%Z then call_void menu_item_5 ;;; wait_back
  else if (c =? 6)%Z then call_void view_log ;;; wait_back
  else if (c =? 7)%Z then
    printf "Bye!\n" [] ;;; exit 0
  else
    printf "Invalid choice.\n" [].

(** [main] run for [n] turns of its loop: [Fuel] when it is still
    running after them. *)
Fixpoint main (n : nat) : M unit :=
  match n with
  | O => out_of_fuel
  | S n' => main_iter ;;; main n'
  end.

End Main.

(** ** Running a piece of code on a given input *)

(** The input made of the given lines, each ended by a newline. *)
Fixpoint lines (l : list string) : string :=
  match l with
  | [] => EmptyString
  | x :: l' => x ++ String LF (lines l')
  end.

(** The program started on [input], with no log file yet. *)
Definition start (input : string) : state :=
  State input None true.

Definition ended {A} (r : outcome A * state * list call) : outcome A :=
  fst (fst r).

Definition left {A} (r : outcome A * state * list call) : state :=
  snd (fst r).

Definition printed {A} (r : outcome A * state * list call) : list call :=
  snd r.

(** The [double] arguments of a list of [printf] calls. *)
Definition numbers_of (c : call) : list double :=
  flat_map (fun a => match a with ADbl d => [d] | _ => [] end) (args c).

Definition numbers (o : list call) : list double :=
  flat_map numbers_of o.

(** The numbers a run displayed. *)
Definition displayed {A} (r : outcome A * state * list call) : list double :=
  numbers (printed r).

(** * Properties *)

Local Open Scope float_scope.
Local Open Scope list_scope.

(** ** Vocabulary of the properties *)

Definition not_lf (c : ascii) : bool := negb (Ascii.eqb c LF).

(** A line as the user types it: no newline inside, and short enough
    for the 128-byte buffer of [read_int] and [read_double] to take it
    together with its newline. *)
Definition short (l : string) : bool :=
  all_chars not_lf l && Nat.leb (String.length l) 126.

(** What the parser is given when the user enters the line [l]. *)
Definition entered (l : string) : string := trim_newline (cstr l).

(** The loop shared by [read_int] and [read_double]: read a line, give it
    to [parse], print [msg] and go round again when it is rejected. *)
Fixpoint read_loop {A} (parse : string -> option A) (msg : string)
         (fuel : nat) (prompt : option string) : M (option A) :=
  match fuel with
  | O => out_of_fuel
  | S fuel' =>
      l <- read_line prompt 128 ;;
      match l with
      | None => ret None
      | Some buf =>
          match parse buf with
          | Some v => ret (Some v)
          | None => printf msg [] ;;; read_loop parse msg fuel' prompt
          end
      end
  end.

Definition parse_int (buf : string) : option Z :=
  option_map int_of_long (parse_long buf 10).

Definition int_msg : string := "Invalid integer. Try again.\n".
Definition double_msg : string := "Invalid number. Try again.\n".

(** A message that reports a rejected calculation: a domain guard's or
    [safe_divide]'s ("Error: ..."), or a rejected count of resistors. *)
Definition is_error (c : call) : bool :=
  prefix "Error" (fmt c)
  || String.eqb (fmt c) "Count must be positive.\n"
  || String.eqb (fmt c) "n must be at least 2.\n".

Definition no_number (c : call) : bool :=
  match numbers_of c with [] => true | _ => false end.

(** Output that reports no error and displays no number: menus, prompts,
    re-prompts. *)
Definition quiet (o : list call) : bool :=
  forallb (fun c => negb (is_error c) && no_number c) o.


(** The string "12" followed by a tab. *)
Definition twelve_tab : string := "12" ++ String TAB "".

(** A run, seen after [pre] was printed. *)
Definition prepend {A} (pre : list call) (r : outcome A * state * list call)
  : outcome A * state * list call :=
  (fst (fst r), snd (fst r), pre ++ snd r).

Definition pct_msg : string := "Error: %% must be in (0,100).\n".

(** A function to stand for [exp] or [log] where a property that holds
    for every such function is used on an example. *)
Definition some_libm (x : double) : double := x.

(** A piece of code that comes back to its caller. *)
Definition ok_end {A} (r : outcome A) : bool :=
  match r with
  | Val _ | Return => true
  | Exit _ | Fuel => false
  end.

Definition has_error (o : list call) : bool := existsb is_error o.

(** Code that comes back, reads input or not, prints menus and prompts
    only, and leaves the log file alone. *)
Definition clean {A} (m : M A) : Prop :=
  forall s,
    ok_end (ended (m s)) = true
    /\ quiet (printed (m s)) = true
    /\ log_file (left (m s)) = log_file s
    /\ log_writable (left (m s)) = log_writable s
    /\ (String.length (stdin (left (m s))) <= String.length (stdin s))%nat.

(** Code that comes back and never reports an error. *)
Definition noerr {A} (m : M A) : Prop :=
  forall s,
    ok_end (ended (m s)) = true
    /\ has_error (printed (m s)) = false
    /\ log_writable (left (m s)) = log_writable s
    /\ (String.length (stdin (left (m s))) <= String.length (stdin s))%nat.

(** Code that comes back and, when it reports an error, displays no
    number, logs nothing and ends by [return;]. *)
Definition guarded {A} (m : M A) : Prop :=
  forall s,
    ok_end (ended (m s)) = true
    /\ (has_error (printed (m s)) = true ->
        numbers (printed (m s)) = []
        /\ log_file (left (m s)) = log_file s
        /\ ended (m s) = Return)
    /\ log_writable (left (m s)) = log_writable s
    /\ (String.length (stdin (left (m s))) <= String.length (stdin s))%nat.

Definition bye : call := Call "Bye!\n" [].
Definition input_error : call := Call "Input error. Exiting.\n" [].
Definition invalid_choice : call := Call "Invalid choice.\n" [].
Definition no_call : call := Call "" [].

(** What [print_menu] prints. *)
Definition menu_text : list call := printed (print_menu (start "")).

(** What [main] prints in [n] turns at the end of the input. *)
Fixpoint spin (n : nat) : list call :=
  match n with
  | O => []
  | S n' => menu_text ++ invalid_choice :: spin n'
  end.


(** A character that is neither [\r] nor [\n], and one that is not NUL. *)
Definition not_eol (c : ascii) : bool := negb (is_eol c).
Definition not_nul (c : ascii) : bool := negb (is_nul c).

(** The log file as a list of records: none when the file does not exist. *)
Definition records (s : state) : list call :=
  match log_file s with
  | Some l => l
  | None => []
  end.

(** The record [log_printf] adds to the log file for the call [c]: the
    first 255 bytes of what the call renders, and a newline. *)
Definition logged (c : call) : call := Call "%s\n" [vsnprintf 256 c].

(** The character of a decimal digit, the numeral of a list of digits
    (most significant first) and the number it denotes. *)
Definition digit_char (d : Z) : ascii := chr (48 + d).

Definition numeral (ds : list Z) : string :=
  fold_right (fun d s => String (digit_char d) s) EmptyString ds.

Definition numeral_value (ds : list Z) : Z :=
  fold_left (fun a d => (a * 10 + d)%Z) ds 0%Z.

Definition is_decimal_digit (d : Z) : Prop := (0 <= d <= 9)%Z.

Definition CR : ascii := chr 13.

(** Where [strtol] in base 10 stops reading digits: at the end of the
    string or at a character that is not a decimal digit. *)
Definition stops (t : string) : bool :=
  match t with
  | EmptyString => true
  | String c _ => match digit_in 10 c with Some _ => false | None => true end
  end.

(** A line short enough for the 64-byte buffer of [get_choice] and
    [wait_back] to take it together with its newline. *)
Definition short64 (l : string) : bool :=
  all_chars not_lf l && Nat.leb (String.length l) 62.


(** Code that takes its input from the front of what is left to read,
    keeps the log file writable or not as it was, and only adds records to
    the log file, [n] at most, and none when the file cannot be opened. *)
Definition frame {A} (n : nat) (m : M A) : Prop :=
  forall s,
    (exists used, stdin s = (used ++ stdin (left (m s)))%string)
    /\ log_writable (left (m s)) = log_writable s
    /\ (exists new,
           records (left (m s)) = records s ++ new
           /\ (List.length new <= n)%nat)
    /\ (log_writable s = false -> log_file (left (m s)) = log_file s).

(** The records a run that started in [s] added to the log file. *)
Definition new_records {A} (s : state) (r : outcome A * state * list call)
  : list call :=
  skipn (List.length (records s)) (records (left r)).

(** Code that displays no number and leaves the log file alone. *)
Definition silent {A} (m : M A) : Prop :=
  forall s,
    numbers (printed (m s)) = []
    /\ log_file (left (m s)) = log_file s
    /\ log_writable (left (m s)) = log_writable s.

(** Code every displayed number of which is an argument of a call it
    gives to [log_printf], when the log file can be opened. *)
Definition recorded {A} (m : M A) : Prop :=
  forall s,
    log_writable s = true ->
    forall d,
      In d (displayed (m s)) ->
      exists c, In (logged c) (new_records s (m s)) /\ In d (numbers_of c).

(** The sum the series loops compute of the values [vs], added to [sum]
    one after the other as they are read. *)
Definition added (sum : double) (vs : list double) : double :=
  fold_left PrimFloat.add vs sum.

(** The labels the series loops print for [n] values, from number [i]. *)
Definition labels (label : string) (i : Z) (n : nat) : list call :=
  map (fun k => Call label [AInt (i + Z.of_nat k)]) (seq 0 n).

(** Lines of input that [read_double] takes as the values [vs]. *)
Definition values (ls : list string) (vs : list double) : Prop :=
  Forall2 (fun l v => short l = true /\ parse_double (entered l) = Some v)
          ls vs.











(** ** Comparison of doubles *)

Lemma SFcompare_antisym (x y : spec_float) :
  SFcompare y x = option_map CompOpp (SFcompare x y).
Proof.
  destruct x as [sx | sx | | sx mx ex], y as [sy | sy | | sy my ey];
    simpl; try reflexivity;
    try (destruct sx; reflexivity); try (destruct sy; reflexivity);
    try (destruct sx, sy; reflexivity).
  destruct sx, sy; simpl; try reflexivity;
    rewrite (Z.compare_antisym ey ex);
    destruct (ey ?= ex)%Z eqn:E; simpl; try reflexivity;
    change (Pos.compare_cont Eq mx my) with (Pos.compare mx my);
    change (Pos.compare_cont Eq my mx) with (Pos.compare my mx);
    rewrite (Pos.compare_antisym mx my);
    destruct (mx ?= my)%positive; reflexivity.
Qed.

(** [x <= y] excludes [y < x], and [x < y] excludes [y <= x]. *)
Lemma leb_not_ltb (x y : double) :
  (x <=? y) = true -> (y <? x) = false.
Proof.
  rewrite leb_spec, ltb_spec. unfold SFleb, SFltb.
  rewrite (SFcompare_antisym (Prim2SF x) (Prim2SF y)).
  destruct (SFcompare (Prim2SF x) (Prim2SF y)) as [[ | | ] | ];
    simpl; congruence.
Qed.

Lemma ltb_not_leb (x y : double) :
  (x <? y) = true -> (y <=? x) = false.
Proof.
  rewrite leb_spec, ltb_spec. unfold SFleb, SFltb.
  rewrite (SFcompare_antisym (Prim2SF x) (Prim2SF y)).
  destruct (SFcompare (Prim2SF x) (Prim2SF y)) as [[ | | ] | ];
    simpl; congruence.
Qed.

(** ** safe_divide *)

(** C3. Whatever the numerator, a denominator of magnitude below 1e-12
    makes [safe_divide] return 0 with the default quotient 0.0 in [*out],
    a value that does not depend on the numerator; a denominator of
    magnitude 1e-12 or more makes it return 1 with the double-precision
    quotient [num / den] in [*out]. *)
Theorem safe_divide_spec (num den : double) :
  ((abs den <? eps) = true ->
     safe_divide num den = (false, 0) /\
     forall num', safe_divide num' den = safe_divide num den) /\
  ((eps <=? abs den) = true ->
     safe_divide num den = (true, num / den)).
Proof.
  unfold safe_divide. split; intros H.
  - rewrite H. split; [reflexivity | intros; reflexivity].
  - rewrite (leb_not_ltb _ _ H). reflexivity.
Qed.

Lemma safe_divide_spec_witness :
  (safe_divide 5 1e-13 = (false, 0) /\
   forall num', safe_divide num' 1e-13 = safe_divide 5 1e-13) /\
  safe_divide 1 (-4) = (true, -0.25).
Proof.
  split.
  - apply (proj1 (safe_divide_spec 5 1e-13)). reflexivity.
  - apply (proj2 (safe_divide_spec 1 (-4))). reflexivity.
Defined.

(** ** Lines of input *)

Lemma string_app_assoc (a b c : string) :
  ((a ++ b) ++ c = a ++ (b ++ c))%string.
Proof. induction a; simpl; congruence. Qed.

Lemma fgets_take_line (l rest : string) (n : nat) :
  all_chars not_lf l = true ->
  (String.length l < n)%nat ->
  fgets_take n (l ++ String LF rest) = ((l ++ String LF "")%string, rest).
Proof.
  revert n. induction l as [ | c l IH]; intros n Hc Hn.
  - destruct n; [lia | reflexivity].
  - simpl in Hc. apply andb_prop in Hc as [Hc Hl].
    destruct n; [simpl in Hn; lia | ]. simpl.
    unfold not_lf in Hc. apply negb_true_iff in Hc. rewrite Hc.
    rewrite IH; [reflexivity | assumption | simpl in Hn; lia].
Qed.

Lemma fgets_take_shrinks (n : nat) (s : string) :
  (0 < n)%nat -> s <> EmptyString ->
  (String.length (snd (fgets_take n s)) < String.length s)%nat.
Proof.
  revert n. induction s as [ | c s IH]; intros n Hn Hs; [congruence | ].
  destruct n; [lia | ]. simpl.
  destruct (Ascii.eqb c LF); simpl; [lia | ].
  destruct n.
  - simpl. lia.
  - destruct s as [ | c' s'].
    + simpl. lia.
    + specialize (IH (S n) ltac:(lia) ltac:(discriminate)).
      destruct (fgets_take (S n) (String c' s')) as [l r]. simpl in *. lia.
Qed.

Lemma entered_newline (l : string) :
  trim_newline (cstr (l ++ String LF "")) = entered l.
Proof.
  unfold entered, trim_newline, cstr.
  induction l as [ | c l IH]; [reflexivity | ].
  simpl. destruct (is_nul c); [reflexivity | ].
  simpl. destruct (is_eol c); [reflexivity | ]. congruence.
Qed.

(** [fgets] either finds the input exhausted, or takes a buffer and
    leaves strictly less to read. *)
Lemma fgets_cases (size : nat) (s : state) :
  (2 <= size)%nat ->
  (stdin s = EmptyString /\ fgets size s = (Val None, s, [])) \/
  (exists buf rest,
      fgets size s = (Val (Some buf), State rest (log_file s) (log_writable s), [])
      /\ (String.length rest < String.length (stdin s))%nat).
Proof.
  intros Hsize. unfold fgets.
  destruct (stdin s) as [ | c t] eqn:E; [left; auto | right].
  pose proof (fgets_take_shrinks (size - 1) (String c t) ltac:(lia)
                                 ltac:(discriminate)) as H.
  destruct (fgets_take (size - 1) (String c t)) as [buf rest].
  exists buf, rest. split; [reflexivity | exact H].
Qed.

Lemma fgets_line (l rest : string) (lf : option (list call)) (lw : bool) :
  short l = true ->
  fgets 128 (State (l ++ String LF rest) lf lw)
  = (Val (Some (l ++ String LF "")%string), State rest lf lw, []).
Proof.
  intros H. apply andb_prop in H as [Hc Hn]. apply Nat.leb_le in Hn.
  unfold fgets. simpl stdin.
  change (128 - 1)%nat with 127%nat.
  rewrite (fgets_take_line l rest 127 Hc ltac:(lia)).
  destruct l; reflexivity.
Qed.

Lemma read_line_eof (p : option string) (lf : option (list call)) (lw : bool) :
  read_line p 128 (State "" lf lw) = (Val None, State "" lf lw, prompt_calls p).
Proof. unfold read_line, bind. simpl. rewrite app_nil_r. reflexivity. Qed.

Lemma read_line_line (p : option string) (l rest : string)
      (lf : option (list call)) (lw : bool) :
  short l = true ->
  read_line p 128 (State (l ++ String LF rest) lf lw)
  = (Val (Some (entered l)), State rest lf lw, prompt_calls p).
Proof.
  intros H. unfold read_line, bind.
  rewrite (fgets_line l rest lf lw H). simpl.
  rewrite entered_newline, app_nil_r. reflexivity.
Qed.

Lemma read_line_cases (p : option string) (s : state) :
  (stdin s = EmptyString /\ read_line p 128 s = (Val None, s, prompt_calls p)) \/
  (exists buf rest,
      read_line p 128 s
      = (Val (Some buf), State rest (log_file s) (log_writable s), prompt_calls p)
      /\ (String.length rest < String.length (stdin s))%nat).
Proof.
  unfold read_line, bind.
  destruct (fgets_cases 128 s ltac:(lia)) as [[E H] | (buf & rest & H & L)];
    rewrite H; simpl; rewrite app_nil_r.
  - left. auto.
  - right. eauto.
Qed.

(** ** The re-prompt loops *)

Lemma read_int_loop_eq (fuel : nat) (p : option string) (s : state) :
  read_int_loop fuel p s = read_loop parse_int int_msg fuel p s.
Proof.
  revert s. induction fuel as [ | fuel IH]; intros s; [reflexivity | ].
  simpl. unfold bind. destruct (read_line p 128 s) as [[[[buf | ] | | c | ] s1] o1];
    try reflexivity.
  unfold parse_int. destruct (parse_long buf 10); simpl; [reflexivity | ].
  rewrite IH. reflexivity.
Qed.

Lemma read_double_loop_eq (fuel : nat) (p : option string) (s : state) :
  read_double_loop fuel p s = read_loop parse_double double_msg fuel p s.
Proof.
  revert s. induction fuel as [ | fuel IH]; intros s; [reflexivity | ].
  simpl. unfold bind. destruct (read_line p 128 s) as [[[[buf | ] | | c | ] s1] o1];
    try reflexivity.
  destruct (parse_double buf); simpl; [reflexivity | ].
  rewrite IH. reflexivity.
Qed.

Lemma quiet_app (a b : list call) :
  quiet (a ++ b) = quiet a && quiet b.
Proof. apply forallb_app. Qed.

Lemma quiet_prompt (p : option string) : quiet (prompt_calls p) = true.
Proof. destruct p; reflexivity. Qed.

Section ReadLoop.

Context {A : Type} (parse : string -> option A) (msg : string).
Hypothesis msg_quiet : quiet [Call msg []] = true.

(** Given a step for every character of input, the loop ends: with a
    value and less input left, or with nothing and no input left. It
    prints prompts and re-prompts only, and leaves the log file alone. *)
Lemma read_loop_total (p : option string) (fuel : nat) (s : state) :
  (String.length (stdin s) < fuel)%nat ->
  exists o s' out,
    read_loop parse msg fuel p s = (Val o, s', out)
    /\ log_file s' = log_file s
    /\ log_writable s' = log_writable s
    /\ quiet out = true
    /\ match o with
       | Some _ => (String.length (stdin s') < String.length (stdin s))%nat
       | None => stdin s' = EmptyString
       end.
Proof.
  revert s. induction fuel as [ | fuel IH]; intros s Hf; [lia | ].
  simpl. unfold bind.
  destruct (read_line_cases p s) as [[E H] | (buf & rest & H & L)]; rewrite H.
  - simpl. exists None, s, (prompt_calls p ++ []).
    rewrite app_nil_r, quiet_prompt. auto.
  - destruct (parse buf) as [v | ] eqn:P.
    + simpl. exists (Some v), (State rest (log_file s) (log_writable s)),
        (prompt_calls p ++ []).
      rewrite app_nil_r, quiet_prompt. simpl. auto.
    + unfold printf. 
      destruct (IH (State rest (log_file s) (log_writable s)))
        as (o & s' & out & R & Hl & Hw & Hq & Ho); [simpl; lia | ].
      rewrite R. exists o, s', (prompt_calls p ++ ([Call msg []] ++ out)).
      simpl in Hl, Hw, Ho.
      repeat split; try assumption.
      * rewrite !quiet_app, quiet_prompt, msg_quiet, Hq. reflexivity.
      * destruct o; [lia | assumption].
Qed.



End ReadLoop.

Lemma string_length_app (a b : string) :
  String.length (a ++ b)%string = (String.length a + String.length b)%nat.
Proof. induction a; simpl; congruence. Qed.

Lemma length_lines (l : list string) :
  (List.length l <= String.length (lines l))%nat.
Proof.
  induction l as [ | x l IH]; simpl; [lia | ].
  rewrite string_length_app. simpl. lia.
Qed.

Lemma int_msg_quiet : quiet [Call int_msg []] = true.
Proof. reflexivity. Qed.

Lemma double_msg_quiet : quiet [Call double_msg []] = true.
Proof. reflexivity. Qed.

Lemma read_int_eq (p : option string) (s : state) :
  read_int p s = read_loop parse_int int_msg (S (String.length (stdin s))) p s.
Proof. unfold read_int. apply read_int_loop_eq. Qed.

Lemma read_double_eq (p : option string) (s : state) :
  read_double p s
  = read_loop parse_double double_msg (S (String.length (stdin s))) p s.
Proof. unfold read_double. apply read_double_loop_eq. Qed.

(** [read_int] and [read_double] always come back to their caller. *)
Lemma read_int_total (p : option string) (s : state) :
  exists o s' out,
    read_int p s = (Val o, s', out)
    /\ log_file s' = log_file s
    /\ log_writable s' = log_writable s
    /\ quiet out = true
    /\ match o with
       | Some _ => (String.length (stdin s') < String.length (stdin s))%nat
       | None => stdin s' = EmptyString
       end.
Proof.
  rewrite read_int_eq. apply read_loop_total; [apply int_msg_quiet | lia].
Qed.

Lemma read_double_total (p : option string) (s : state) :
  exists o s' out,
    read_double p s = (Val o, s', out)
    /\ log_file s' = log_file s
    /\ log_writable s' = log_writable s
    /\ quiet out = true
    /\ match o with
       | Some _ => (String.length (stdin s') < String.length (stdin s))%nat
       | None => stdin s' = EmptyString
       end.
Proof.
  rewrite read_double_eq. apply read_loop_total; [apply double_msg_quiet | lia].
Qed.


(** Reading one well-formed line. *)
Lemma read_int_line (p : option string) (l rest : string) (v : Z)
      (lf : option (list call)) (lw : bool) :
  short l = true -> parse_long (entered l) 10 = Some v ->
  read_int p (State (l ++ String LF rest) lf lw)
  = (Val (Some (int_of_long v)), State rest lf lw, prompt_calls p).
Proof.
  intros Hs Hp. unfold read_int. simpl read_int_loop. unfold bind.
  rewrite (read_line_line p l rest lf lw Hs), Hp. simpl.
  rewrite app_nil_r. reflexivity.
Qed.

Lemma read_double_line (p : option string) (l rest : string) (v : double)
      (lf : option (list call)) (lw : bool) :
  short l = true -> parse_double (entered l) = Some v ->
  read_double p (State (l ++ String LF rest) lf lw)
  = (Val (Some v), State rest lf lw, prompt_calls p).
Proof.
  intros Hs Hp. unfold read_double. simpl read_double_loop. unfold bind.
  rewrite (read_line_line p l rest lf lw Hs), Hp. simpl.
  rewrite app_nil_r. reflexivity.
Qed.

(** [if (!m) return;] : when [m] fails the rest of the function is not run. *)
Lemma require_fails {A B} (m : M (option A)) (k : A -> M B)
      (s s' : state) (out : list call) :
  m s = (Val None, s', out) ->
  (x <- require m ;; k x) s = (Return, s', out).
Proof.
  intros H. unfold require, bind. rewrite H. simpl.
  rewrite app_nil_r. reflexivity.
Qed.

(** ** The strict parsers *)

Lemma skip_blank_empty (r : string) :
  is_empty (skip_while is_blank r) = all_chars is_blank r.
Proof.
  induction r as [ | c r IH]; [reflexivity | ].
  simpl. destruct (is_blank c); [exact IH | reflexivity].
Qed.

Lemma is_empty_false (s : string) : is_empty s = false <-> s <> EmptyString.
Proof. destruct s; simpl; split; congruence. Qed.

Lemma parse_long_iff (s : string) (base v : Z) :
  parse_long s base = Some v <->
  s <> EmptyString
  /\ Strtol.consumed (Strtol.strtol s base) <> 0%nat
  /\ Strtol.erange (Strtol.strtol s base) = false
  /\ all_chars is_blank (Strtol.rest (Strtol.strtol s base)) = true
  /\ v = Strtol.value (Strtol.strtol s base).
Proof.
  unfold parse_long. rewrite skip_blank_empty.
  destruct (is_empty s) eqn:E.
  - split; [discriminate | ]. intros [H _]. destruct s; [congruence | discriminate].
  - apply is_empty_false in E.
    destruct (Strtol.erange (Strtol.strtol s base));
      [split; [discriminate | intros (_ & _ & H & _); discriminate] | ].
    destruct (Nat.eqb (Strtol.consumed (Strtol.strtol s base)) 0) eqn:C.
    + apply Nat.eqb_eq in C. split; [discriminate | ].
      intros (_ & H & _). congruence.
    + apply Nat.eqb_neq in C.
      destruct (all_chars is_blank (Strtol.rest (Strtol.strtol s base))); simpl.
      * split; [intros [= <-]; auto | intros (_ & _ & _ & _ & ->); reflexivity].
      * split; [discriminate | intros (_ & _ & _ & H & _); discriminate].
Qed.

Lemma parse_double_iff (s : string) (v : double) :
  parse_double s = Some v <->
  s <> EmptyString
  /\ Strtod.consumed (Strtod.strtod s) <> 0%nat
  /\ Strtod.erange (Strtod.strtod s) = false
  /\ all_chars is_blank (Strtod.rest (Strtod.strtod s)) = true
  /\ v = Strtod.value (Strtod.strtod s).
Proof.
  unfold parse_double. rewrite skip_blank_empty.
  destruct (is_empty s) eqn:E.
  - split; [discriminate | ]. intros [H _]. destruct s; [congruence | discriminate].
  - apply is_empty_false in E.
    destruct (Strtod.erange (Strtod.strtod s));
      [split; [discriminate | intros (_ & _ & H & _); discriminate] | ].
    destruct (Nat.eqb (Strtod.consumed (Strtod.strtod s)) 0) eqn:C.
    + apply Nat.eqb_eq in C. split; [discriminate | ].
      intros (_ & H & _). congruence.
    + apply Nat.eqb_neq in C.
      destruct (all_chars is_blank (Strtod.rest (Strtod.strtod s))); simpl.
      * split; [intros [= <-]; auto | intros (_ & _ & _ & _ & ->); reflexivity].
      * split; [discriminate | intros (_ & _ & _ & H & _); discriminate].
Qed.

(** C4, as amended. [parse_long] and [parse_double] succeed on a string
    if and only if the string is non-empty, [strtol] (resp. [strtod])
    consumes a non-empty prefix of it, does not report a range error, and
    leaves only spaces and tabs after the prefix; the value is then the one
    [strtol] (resp. [strtod]) returned. So "12", "12 " and "12" followed by
    a tab succeed, and "", "abc", " ", "12abc" and "3.4xyz" fail. *)
Theorem strict_parser_spec :
  (forall s base v,
      parse_long s base = Some v <->
      s <> EmptyString
      /\ Strtol.consumed (Strtol.strtol s base) <> 0%nat
      /\ Strtol.erange (Strtol.strtol s base) = false
      /\ all_chars is_blank (Strtol.rest (Strtol.strtol s base)) = true
      /\ v = Strtol.value (Strtol.strtol s base))
  /\ (forall s v,
      parse_double s = Some v <->
      s <> EmptyString
      /\ Strtod.consumed (Strtod.strtod s) <> 0%nat
      /\ Strtod.erange (Strtod.strtod s) = false
      /\ all_chars is_blank (Strtod.rest (Strtod.strtod s)) = true
      /\ v = Strtod.value (Strtod.strtod s))
  /\ map (fun s => parse_long s 10) ["12"; "12 "; twelve_tab]%string
     = [Some 12%Z; Some 12%Z; Some 12%Z]
  /\ map parse_double ["12"; "12 "; twelve_tab]%string
     = [Some 12; Some 12; Some 12]
  /\ map (fun s => parse_long s 10) [""; "abc"; " "; "12abc"; "3.4xyz"]%string
     = [None; None; None; None; None]
  /\ map parse_double [""; "abc"; " "; "12abc"; "3.4xyz"]%string
     = [None; None; None; None; None].
Proof.
  split; [exact parse_long_iff | ].
  split; [exact parse_double_iff | ].
  repeat split; vm_compute; reflexivity.
Qed.

(** C4 as stated fails on a number out of range: all of "99999999999999999999"
    is a valid prefix for [strtol], and all of "1e999" for [strtod], with
    nothing after it, and both are rejected. *)
Lemma strict_parser_range_counterexample :
  ("99999999999999999999"%string <> EmptyString
   /\ Strtol.consumed (Strtol.strtol "99999999999999999999" 10) = 20%nat
   /\ Strtol.rest (Strtol.strtol "99999999999999999999" 10) = EmptyString
   /\ parse_long "99999999999999999999" 10 = None)
  /\ ("1e999"%string <> EmptyString
      /\ Strtod.consumed (Strtod.strtod "1e999") = 5%nat
      /\ Strtod.rest (Strtod.strtod "1e999") = EmptyString
      /\ parse_double "1e999" = None).
Proof.
  repeat split; try discriminate; vm_compute; reflexivity.
Qed.

(** C9. [parse_double] accepts "inf" and "nan", and the other spellings
    [strtod] takes for them, and returns a value that is not finite. *)
Theorem parse_double_accepts_non_finite :
  parse_double "inf" = Some infinity
  /\ parse_double "nan" = Some nan
  /\ map parse_double ["-inf"; "INF"; "+Infinity"; " -infinity "]%string
     = [Some neg_infinity; Some infinity; Some infinity; Some neg_infinity]
  /\ map parse_double ["NaN"; "-nan"; "nan(0x7ff)"; "NAN() "]%string
     = [Some nan; Some nan; Some nan; Some nan]
  /\ is_finite infinity = false
  /\ is_finite neg_infinity = false
  /\ is_finite nan = false.
Proof.
  repeat split; vm_compute; reflexivity.
Qed.

(** C5 (the code departs from it). [read_int] accepts "4294967297", a
    value that fits in a [long] and not in an [int], and returns it
    converted to [int]: 1. A value out of the range of [long] is rejected. *)
Theorem read_int_truncates :
  parse_long "4294967297" 10 = Some 4294967297%Z
  /\ in_int_range 4294967297 = false
  /\ read_int (Some "Select: "%string) (start (lines ["4294967297"]%string))
     = (Val (Some 1%Z), start "", [Call "%s" [AStr "Select: "]])
  /\ displayed (menu_item_5 (start (lines ["4294967297"; "2"; "3"]%string)))
     = [6]
  /\ parse_long "9223372036854775808" 10 = None.
Proof.
  repeat split; vm_compute; reflexivity.
Qed.

(** ** Running a module on lines of input *)

Lemma prepend_prepend {A} (a b : list call) (r : outcome A * state * list call) :
  prepend a (prepend b r) = prepend (a ++ b) r.
Proof. unfold prepend. simpl. rewrite app_assoc. reflexivity. Qed.

Lemma bind_val {A B} (m : M A) (k : A -> M B) (s s1 : state)
      (a : A) (o1 : list call) :
  m s = (Val a, s1, o1) -> bind m k s = prepend o1 (k a s1).
Proof.
  intros H. unfold bind, prepend. rewrite H.
  destruct (k a s1) as [[r s2] o2]. reflexivity.
Qed.

Lemma printf_bind {B} (f : string) (a : list arg) (k : M B) (s : state) :
  (printf f a ;;; k) s = prepend [Call f a] (k s).
Proof.
  apply (bind_val (printf f a) (fun _ => k) s s tt [Call f a]). reflexivity.
Qed.

Lemma lines_cons_app (l : string) (ls : list string) (rest : string) :
  (lines (l :: ls) ++ rest = l ++ String LF (lines ls ++ rest))%string.
Proof. simpl. rewrite string_app_assoc. reflexivity. Qed.

Lemma ask_lines {B} (p l : string) (ls : list string) (rest : string)
      (lf : option (list call)) (lw : bool) (v : double) (k : double -> M B) :
  short l = true -> parse_double (entered l) = Some v ->
  (x <- ask p ;; k x) (State (lines (l :: ls) ++ rest) lf lw)
  = prepend [Call "%s" [AStr p]] (k v (State (lines ls ++ rest) lf lw)).
Proof.
  intros Hs Hp. rewrite lines_cons_app.
  apply (bind_val (ask p) k _ (State (lines ls ++ rest) lf lw) v
                  [Call "%s" [AStr p]]).
  unfold ask, require, bind.
  rewrite (read_double_line (Some p) l _ v lf lw Hs Hp). reflexivity.
Qed.

Lemma ask_int_lines {B} (p l : string) (ls : list string) (rest : string)
      (lf : option (list call)) (lw : bool) (v : Z) (k : Z -> M B) :
  short l = true -> parse_long (entered l) 10 = Some v ->
  (x <- ask_int p ;; k x) (State (lines (l :: ls) ++ rest) lf lw)
  = prepend [Call "%s" [AStr p]]
            (k (int_of_long v) (State (lines ls ++ rest) lf lw)).
Proof.
  intros Hs Hp. rewrite lines_cons_app.
  apply (bind_val (ask_int p) k _ (State (lines ls ++ rest) lf lw)
                  (int_of_long v) [Call "%s" [AStr p]]).
  unfold ask_int, require, bind.
  rewrite (read_int_line (Some p) l _ v lf lw Hs Hp). reflexivity.
Qed.

(** Symbolic execution of a menu function on lines of input: menu texts,
    prompts answered by the next line, and the choice of a mode. *)
Ltac pick_mode :=
  repeat match goal with
         | |- context [(?a =? ?b)%Z] =>
             let v := eval vm_compute in (a =? b)%Z in
             change (a =? b)%Z with v
         end;
  cbv iota.

Ltac run_lines :=
  repeat first
    [ rewrite printf_bind
    | erewrite ask_int_lines by (first [reflexivity | eassumption]); pick_mode
    | erewrite ask_lines by (first [reflexivity | eassumption]) ];
  rewrite ?prepend_prepend;
  change (lines [] ++ ?r)%string with r.

(** ** Parallel resistors *)

(** C6. Mode "Req given R1 and R2" of the resistor tools, on the values
    R1 and R2 read: when either compares equal to 0.0 the module prints
    the short-circuit result, logs the short-circuit record and returns,
    whatever [safe_divide] would say; when neither does, however small
    they are, what the module does is decided by
    [safe_divide(R1 * R2, R1 + R2)]: its quotient is displayed and logged
    with the general record, or its failure is reported and nothing is
    displayed or logged. *)
Theorem parallel_req_spec (R1 R2 : double) :
  (forall s,
      (R1 =? 0) || (R2 =? 0) = true ->
      parallel_req R1 R2 s
      = (Return,
         append_log
           (Call "Resistors Parallel(2): R1=%.6f ohm, R2=%.6f ohm -> Req=0 (short branch)"
                 [ADbl R1; ADbl R2]) s,
         [Call "Req = 0 ohms (one branch is a short).\n" []]))
  /\ (forall s,
      (R1 =? 0) || (R2 =? 0) = false ->
      parallel_req R1 R2 s
      = match safe_divide (R1 * R2) (R1 + R2) with
        | (true, Req) =>
            (Val tt,
             append_log
               (Call "Resistors Parallel(2): R1=%.6f ohm, R2=%.6f ohm -> Req=%.6f ohm"
                     [ADbl R1; ADbl R2; ADbl Req]) s,
             [Call "R_eq(parallel,2) = %.6f ohms\n" [ADbl Req]])
        | (false, _) =>
            (Return, s,
             [Call "Error: R1 + R2 cannot be zero (or near zero).\n" []])
        end)
  /\ (exists pre,
         quiet pre = true /\
         forall l1 l2 rest lf lw,
           short l1 = true -> parse_double (entered l1) = Some R1 ->
           short l2 = true -> parse_double (entered l2) = Some R2 ->
           menu_item_2 (State (lines ["2"; "1"; l1; l2] ++ rest)%string lf lw)
           = prepend pre (parallel_req R1 R2 (State rest lf lw))).
Proof.
  split; [ | split].
  - intros s H. unfold parallel_req. rewrite H. reflexivity.
  - intros s H. unfold parallel_req. rewrite H.
    unfold divide_or, bind.
    destruct (safe_divide (R1 * R2) (R1 + R2)) as [[ | ] q]; reflexivity.
  - eexists. split; cycle 1.
    + intros l1 l2 rest lf lw H1 P1 H2 P2.
      unfold menu_item_2. run_lines. reflexivity.
    + reflexivity.
Qed.

Lemma parallel_req_spec_witness :
  parallel_req 100 (-0) (start "")
  = (Return,
     append_log
       (Call "Resistors Parallel(2): R1=%.6f ohm, R2=%.6f ohm -> Req=0 (short branch)"
             [ADbl 100; ADbl (-0)]) (start ""),
     [Call "Req = 0 ohms (one branch is a short).\n" []])
  /\ parallel_req 1e-13 2e-13 (start "")
     = (Return, start "",
        [Call "Error: R1 + R2 cannot be zero (or near zero).\n" []]).
Proof.
  split.
  - apply (proj1 (parallel_req_spec 100 (-0)) (start "")). reflexivity.
  - apply (proj1 (proj2 (parallel_req_spec 1e-13 2e-13)) (start "")).
    reflexivity.
Defined.

(** ** The percentage guard of the RC module *)

(** C7. The three inverse modes of the RC module (solve t, solve C,
    solve R), on the values read. When the percentage is at most 0 or at
    least 100, the mode prints one domain-violation message and returns:
    the message of the percentage guard when the quantities tested before
    it (R and C in solve t; R, then t, in solve C; C, then t, in solve R)
    are in their domains, and the message of the first of these that is
    not otherwise; it displays no number, leaves the log file as it was,
    and what it does depends neither on [log] nor on a division. When the
    percentage is strictly between 0 and 100 the test of the guard is
    false and, the quantities tested before it being in their domains,
    the mode goes on with what follows the guard: solve t displays and
    logs its result; solve C and solve R test the argument of the
    logarithm, compute tau and divide it with [safe_divide], and display
    and log the result when that succeeds. *)
Theorem percent_guard_spec (c_exp c_log : double -> double) (pct : double) :
  ((pct <=? 0) || (100 <=? pct) = true ->
   forall a b s,
     rc_solve_t c_log a b pct s
     = (Return, s,
        [Call (if (a <=? 0) || (b <=? 0) then "Error: R>0, C>0.\n"
               else pct_msg) []])
     /\ rc_solve_c c_log a pct b s
        = (Return, s,
           [Call (if a <=? 0 then "Error: R>0.\n"
                  else if b <? 0 then "Error: t>=0.\n"
                  else pct_msg) []])
     /\ rc_solve_r c_log a pct b s
        = (Return, s,
           [Call (if a <=? 0 then "Error: C>0.\n"
                  else if b <? 0 then "Error: t>=0.\n"
                  else pct_msg) []]))
  /\ ((0 <? pct) = true -> (pct <? 100) = true ->
      (pct <=? 0) || (100 <=? pct) = false
      /\ (forall R C s,
             (R <=? 0) || (C <=? 0) = false ->
             rc_solve_t c_log R C pct s
             = (Val tt,
                append_log
                  (Call "RC solve t: R=%.6f ohm, C=%.9e F, charge=%.2f%% -> t=%.6f s"
                        [ADbl R; ADbl C; ADbl pct;
                         ADbl (- (R * C) * c_log (1 - pct / 100))]) s,
                [Call "t = %.6f s\n"
                      [ADbl (- (R * C) * c_log (1 - pct / 100))]]))
      /\ (forall R t s,
             (R <=? 0) = false -> (t <? 0) = false ->
             rc_solve_c c_log R pct t s
             = if 1 - pct / 100 <=? 0
               then (Return, s, [Call "Error: invalid ln() domain.\n" []])
               else
                 match safe_divide (- t / c_log (1 - pct / 100)) R with
                 | (true, C) =>
                     (Val tt,
                      append_log
                        (Call "RC solve C: R=%.6f ohm, charge=%.2f%%, t=%.6f s -> C=%.9e F (tau=%.6f s)"
                              [ADbl R; ADbl pct; ADbl t; ADbl C;
                               ADbl (- t / c_log (1 - pct / 100))]) s,
                      [Call "C = %.9e F (Tau = %.6f s)\n"
                            [ADbl C; ADbl (- t / c_log (1 - pct / 100))]])
                 | (false, _) =>
                     (Return, s, [Call "Error: division by zero.\n" []])
                 end)
      /\ (forall C t s,
             (C <=? 0) = false -> (t <? 0) = false ->
             rc_solve_r c_log C pct t s
             = if 1 - pct / 100 <=? 0
               then (Return, s, [Call "Error: invalid ln() domain.\n" []])
               else
                 match safe_divide (- t / c_log (1 - pct / 100)) C with
                 | (true, R) =>
                     (Val tt,
                      append_log
                        (Call "RC solve R: C=%.9e F, charge=%.2f%%, t=%.6f s -> R=%.6f ohm (tau=%.6f s)"
                              [ADbl C; ADbl pct; ADbl t; ADbl R;
                               ADbl (- t / c_log (1 - pct / 100))]) s,
                      [Call "R = %.6f ohms (Tau = %.6f s)\n"
                            [ADbl R; ADbl (- t / c_log (1 - pct / 100))]])
                 | (false, _) =>
                     (Return, s, [Call "Error: division by zero.\n" []])
                 end)
      /\ (forall a b s,
             ~ In (Call pct_msg []) (printed (rc_solve_c c_log a pct b s))
             /\ ~ In (Call pct_msg []) (printed (rc_solve_r c_log a pct b s))))
  /\ (exists pre2 pre4 pre5,
         forall la lb lp rest lf lw a b,
           short la = true -> parse_double (entered la) = Some a ->
           short lb = true -> parse_double (entered lb) = Some b ->
           short lp = true -> parse_double (entered lp) = Some pct ->
           menu_item_4 c_exp c_log (State (lines ["2"; la; lb; lp] ++ rest)%string lf lw)
           = prepend pre2 (rc_solve_t c_log a b pct (State rest lf lw))
           /\ menu_item_4 c_exp c_log (State (lines ["4"; la; lp; lb] ++ rest)%string lf lw)
              = prepend pre4 (rc_solve_c c_log a pct b (State rest lf lw))
           /\ menu_item_4 c_exp c_log (State (lines ["5"; la; lp; lb] ++ rest)%string lf lw)
              = prepend pre5 (rc_solve_r c_log a pct b (State rest lf lw))).
Proof.
  split; [ | split].
  - intros H a b s. repeat split.
    + unfold rc_solve_t, reject_if, bind.
      destruct ((a <=? 0) || (b <=? 0)); simpl; [reflexivity | ].
      rewrite H. reflexivity.
    + unfold rc_solve_c, reject_if, bind.
      destruct (a <=? 0); simpl; [reflexivity | ].
      destruct (b <? 0); simpl; [reflexivity | ].
      rewrite H. reflexivity.
    + unfold rc_solve_r, reject_if, bind.
      destruct (a <=? 0); simpl; [reflexivity | ].
      destruct (b <? 0); simpl; [reflexivity | ].
      rewrite H. reflexivity.
  - intros H0 H100.
    assert (G : (pct <=? 0) || (100 <=? pct) = false).
    { rewrite (ltb_not_leb _ _ H0), (ltb_not_leb _ _ H100). reflexivity. }
    split; [exact G | ]. split; [ | split; [ | split]].
    + intros R C s HRC. unfold rc_solve_t, reject_if, bind.
      rewrite HRC, G. reflexivity.
    + intros R t s HR Ht.
      unfold rc_solve_c, reject_if, divide_or, bind, printf, log_printf,
        early_return, ret.
      rewrite HR, Ht, G. cbv iota beta zeta.
      destruct (1 - pct / 100 <=? 0); [reflexivity | ].
      destruct (safe_divide (- t / c_log (1 - pct / 100)) R) as [[ | ] q];
        reflexivity.
    + intros C t s HC Ht.
      unfold rc_solve_r, reject_if, divide_or, bind, printf, log_printf,
        early_return, ret.
      rewrite HC, Ht, G. cbv iota beta zeta.
      destruct (1 - pct / 100 <=? 0); [reflexivity | ].
      destruct (safe_divide (- t / c_log (1 - pct / 100)) C) as [[ | ] q];
        reflexivity.
    + intros a b s. unfold rc_solve_c, rc_solve_r, reject_if, divide_or, bind.
      rewrite G. split.
      * destruct (a <=? 0); simpl; [intros [E | []]; discriminate | ].
        destruct (b <? 0); simpl; [intros [E | []]; discriminate | ].
        destruct (1 - pct / 100 <=? 0); simpl; [intros [E | []]; discriminate | ].
        destruct (safe_divide (- b / c_log (1 - pct / 100)) a) as [[ | ] q];
          simpl; intros [E | []]; discriminate.
      * destruct (a <=? 0); simpl; [intros [E | []]; discriminate | ].
        destruct (b <? 0); simpl; [intros [E | []]; discriminate | ].
        destruct (1 - pct / 100 <=? 0); simpl; [intros [E | []]; discriminate | ].
        destruct (safe_divide (- b / c_log (1 - pct / 100)) a) as [[ | ] q];
          simpl; intros [E | []]; discriminate.
  - do 3 eexists. intros la lb lp rest lf lw a b Ha Pa Hb Pb Hp Pp.
    repeat split; unfold menu_item_4; run_lines; reflexivity.
Qed.

Lemma percent_guard_spec_witness :
  rc_solve_c some_libm 1000 100 0.001 (start "")
  = (Return, start "",
     [Call (if 1000 <=? 0 then "Error: R>0.\n"
            else if 0.001 <? 0 then "Error: t>=0.\n"
            else pct_msg) []])
  /\ rc_solve_c some_libm 1000 50 0.001 (start "")
     = (if 1 - 50 / 100 <=? 0
        then (Return, start "", [Call "Error: invalid ln() domain.\n" []])
        else
          match safe_divide (- 0.001 / some_libm (1 - 50 / 100)) 1000 with
          | (true, C) =>
              (Val tt,
               append_log
                 (Call "RC solve C: R=%.6f ohm, charge=%.2f%%, t=%.6f s -> C=%.9e F (tau=%.6f s)"
                       [ADbl 1000; ADbl 50; ADbl 0.001; ADbl C;
                        ADbl (- 0.001 / some_libm (1 - 50 / 100))])
                 (start ""),
               [Call "C = %.9e F (Tau = %.6f s)\n"
                     [ADbl C; ADbl (- 0.001 / some_libm (1 - 50 / 100))]])
          | (false, _) =>
              (Return, start "", [Call "Error: division by zero.\n" []])
          end).
Proof.
  split.
  - apply (proj1 (proj2 (proj1 (percent_guard_spec some_libm some_libm 100)
                               eq_refl 1000 0.001 (start "")))).
  - apply (proj1 (proj2 (proj2
             (proj1 (proj2 (percent_guard_spec some_libm some_libm 50))
                    eq_refl eq_refl))) 1000 0.001 (start ""));
      reflexivity.
Defined.

(** ** What every run of a module does *)

Lemma has_error_app (a b : list call) :
  has_error (a ++ b) = has_error a || has_error b.
Proof. apply existsb_app. Qed.

Lemma numbers_app (a b : list call) :
  numbers (a ++ b) = numbers a ++ numbers b.
Proof. apply flat_map_app. Qed.

Lemma quiet_no_error (o : list call) : quiet o = true -> has_error o = false.
Proof.
  induction o as [ | c o IH]; simpl; [reflexivity | ].
  intros H. apply andb_prop in H as [H1 H2]. apply andb_prop in H1 as [H1 _].
  apply negb_true_iff in H1. rewrite H1. simpl. auto.
Qed.

Lemma quiet_no_numbers (o : list call) : quiet o = true -> numbers o = [].
Proof.
  induction o as [ | c o IH]; simpl; [reflexivity | ].
  intros H. apply andb_prop in H as [H1 H2]. apply andb_prop in H1 as [_ H1].
  unfold no_number in H1. destruct (numbers_of c); [simpl; auto | discriminate].
Qed.

Ltac unfold_run := unfold ended, left, printed in *; simpl in *.

Lemma clean_noerr {A} (m : M A) : clean m -> noerr m.
Proof.
  intros H s. destruct (H s) as (H1 & H2 & _ & H4 & H5).
  repeat split; auto using quiet_no_error.
Qed.

Lemma noerr_guarded {A} (m : M A) : noerr m -> guarded m.
Proof.
  intros H s. destruct (H s) as (H1 & H2 & H3 & H4).
  repeat split; auto; rewrite H2 in *; discriminate.
Qed.

Lemma clean_ret {A} (a : A) : clean (ret a).
Proof. intros s. unfold_run. repeat split; auto. Qed.

Lemma clean_early_return {A} : clean (@early_return A).
Proof. intros s. unfold_run. repeat split; auto. Qed.

Lemma clean_printf (f : string) (a : list arg) :
  quiet [Call f a] = true -> clean (printf f a).
Proof. intros H s. unfold_run. repeat split; auto. Qed.

Lemma clean_bind {A B} (m : M A) (k : A -> M B) :
  clean m -> (forall a, clean (k a)) -> clean (bind m k).
Proof.
  intros Hm Hk s. specialize (Hm s). unfold bind.
  destruct (m s) as [[[a | | c | ] s1] o1]; unfold_run;
    destruct Hm as (H1 & H2 & H3 & H4 & H5); try discriminate.
  - specialize (Hk a s1). destruct (k a s1) as [[r s2] o2]. unfold_run.
    destruct Hk as (K1 & K2 & K3 & K4 & K5).
    repeat split; try congruence; try lia.
    rewrite quiet_app, H2, K2. reflexivity.
  - auto.
Qed.

Lemma noerr_bind {A B} (m : M A) (k : A -> M B) :
  noerr m -> (forall a, noerr (k a)) -> noerr (bind m k).
Proof.
  intros Hm Hk s. specialize (Hm s). unfold bind.
  destruct (m s) as [[[a | | c | ] s1] o1]; unfold_run;
    destruct Hm as (H1 & H2 & H3 & H4); try discriminate.
  - specialize (Hk a s1). destruct (k a s1) as [[r s2] o2]. unfold_run.
    destruct Hk as (K1 & K2 & K3 & K4).
    repeat split; try congruence; try lia.
    rewrite has_error_app, H2, K2. reflexivity.
  - auto.
Qed.

Lemma guarded_bind {A B} (m : M A) (k : A -> M B) :
  clean m -> (forall a, guarded (k a)) -> guarded (bind m k).
Proof.
  intros Hm Hk s. specialize (Hm s). unfold bind.
  destruct (m s) as [[[a | | c | ] s1] o1]; unfold_run;
    destruct Hm as (H1 & H2 & H3 & H4 & H5); try discriminate.
  - specialize (Hk a s1). destruct (k a s1) as [[r s2] o2]. unfold_run.
    destruct Hk as (K1 & K2 & K3 & K4).
    repeat split; try congruence; try lia;
      rewrite has_error_app, (quiet_no_error _ H2) in H; simpl in H;
      destruct (K2 H) as (N & L & R).
    + rewrite numbers_app, (quiet_no_numbers _ H2), N. reflexivity.
    + congruence.
    + exact R.
  - rewrite (quiet_no_error _ H2). repeat split; auto; discriminate.
Qed.

Lemma clean_read_int (p : option string) : clean (read_int p).
Proof.
  intros s. destruct (read_int_total p s) as (o & s' & out & H & L & W & Q & I).
  rewrite H. unfold_run. repeat split; auto.
  destruct o; [lia | rewrite I; simpl; lia].
Qed.

Lemma clean_read_double (p : option string) : clean (read_double p).
Proof.
  intros s. destruct (read_double_total p s) as (o & s' & out & H & L & W & Q & I).
  rewrite H. unfold_run. repeat split; auto.
  destruct o; [lia | rewrite I; simpl; lia].
Qed.

Lemma clean_require {A} (m : M (option A)) : clean m -> clean (require m).
Proof.
  intros H. apply clean_bind; [exact H | ].
  intros [a | ]; [apply clean_ret | apply clean_early_return].
Qed.

Lemma clean_ask_int (p : string) : clean (ask_int p).
Proof. apply clean_require, clean_read_int. Qed.

Lemma clean_ask (p : string) : clean (ask p).
Proof. apply clean_require, clean_read_double. Qed.

Lemma noerr_printf (f : string) (a : list arg) :
  is_error (Call f a) = false -> noerr (printf f a).
Proof. intros H s. unfold_run. rewrite H. auto. Qed.

Lemma log_writable_append (c : call) (s : state) :
  log_writable (append_log c s) = log_writable s.
Proof.
  unfold append_log, log_line. destruct (log_writable s) eqn:E; simpl; auto.
Qed.

Lemma stdin_append (c : call) (s : state) : stdin (append_log c s) = stdin s.
Proof. unfold append_log, log_line. destruct (log_writable s); reflexivity. Qed.

Lemma noerr_log_printf (f : string) (a : list arg) : noerr (log_printf f a).
Proof.
  intros s. unfold_run. rewrite log_writable_append, stdin_append. auto.
Qed.

Lemma noerr_early_return {A} : noerr (@early_return A).
Proof. apply clean_noerr, clean_early_return. Qed.

(** [if (c) { printf(msg); return; }] before guarded code. *)
Lemma guarded_reject_if {B} (c : bool) (msg : string) (k : M B) :
  guarded k -> guarded (reject_if c msg ;;; k).
Proof.
  intros Hk s. unfold reject_if, bind. destruct c.
  - unfold_run. repeat split; auto.
  - unfold_run. specialize (Hk s). destruct (k s) as [[r s2] o2]. exact Hk.
Qed.

(** [if (!safe_divide(...)) { printf(msg); return; }] before guarded code. *)
Lemma guarded_divide_or {B} (msg : string) (num den : double)
      (k : double -> M B) :
  (forall q, guarded (k q)) -> guarded (q <- divide_or msg num den ;; k q).
Proof.
  intros Hk s. unfold divide_or, bind.
  destruct (safe_divide num den) as [[ | ] q].
  - unfold_run. specialize (Hk q s). destruct (k q s) as [[r s2] o2]. exact Hk.
  - unfold_run. repeat split; auto.
Qed.

Lemma guarded_if {A} (c : bool) (a b : M A) :
  guarded a -> guarded b -> guarded (if c then a else b).
Proof. destruct c; auto. Qed.

(** The loops of the series modes come back, given a step per character
    of input. *)
Lemma sum_loop_clean (label : string) (last : Z) :
  is_error (Call label []) = false ->
  forall fuel i sum s,
    (String.length (stdin s) < fuel)%nat ->
    exists r s' o,
      sum_loop fuel label i last sum s = (r, s', o)
      /\ ok_end r = true
      /\ quiet o = true
      /\ log_file s' = log_file s
      /\ log_writable s' = log_writable s
      /\ (String.length (stdin s') <= String.length (stdin s))%nat.
Proof.
  intros Hl. induction fuel as [ | fuel IH]; intros i sum s Hf; [lia | ].
  simpl. destruct (last <? i)%Z.
  { exists (Val sum), s, []. repeat split; auto. }
  assert (E : quiet [Call label [AInt i]] = true).
  { unfold quiet, forallb, is_error in *. simpl fmt in *. rewrite Hl.
    reflexivity. }
  unfold bind at 1. unfold printf at 1.
  unfold require, bind.
  destruct (read_double_total None s) as (o & s' & out & H & L & W & Q & I).
  rewrite H. destruct o as [v | ].
  - unfold ret at 1.
    destruct (IH (int_of_long (i + 1)) (sum + v) s' ltac:(lia))
      as (r & s2 & o2 & R & I1 & I2 & I3 & I4 & I5).
    rewrite R. eexists _, _, _. split; [reflexivity | ].
    repeat split; try congruence; try lia.
    rewrite !quiet_app, E, Q, I2. reflexivity.
  - unfold early_return. eexists _, _, _. split; [reflexivity | ].
    repeat split; auto; try (rewrite I; simpl; lia).
    rewrite !quiet_app, E, Q. reflexivity.
Qed.

Lemma clean_sum_inputs (label : string) (last : Z) :
  is_error (Call label []) = false -> clean (sum_inputs label last).
Proof.
  intros Hl s. unfold sum_inputs.
  destruct (sum_loop_clean label last Hl (S (String.length (stdin s)))
                           1%Z 0 s ltac:(lia))
    as (r & s' & o & R & H).
  rewrite R. exact H.
Qed.

(** One step in showing that a menu function is [guarded]: a menu text or
    a prompt, a guard, a choice, or the display and the log of a result. *)
Ltac clean_step :=
  first [ apply clean_ask_int | apply clean_ask
        | apply clean_printf; reflexivity
        | apply clean_sum_inputs; reflexivity ].

Ltac noerr_step :=
  first [ apply noerr_log_printf
        | apply noerr_printf; reflexivity
        | apply noerr_early_return
        | apply noerr_bind; [ | intros ? ] ].

Ltac guarded_step :=
  cbv zeta;
  lazymatch goal with
  | |- guarded (if _ then _ else _) => apply guarded_if
  | |- guarded (bind (reject_if _ _) _) => apply guarded_reject_if
  | |- guarded (bind (divide_or _ _ _) _) => apply guarded_divide_or; intros ?
  | |- guarded (bind (printf _ (_ :: _)) _) =>
      apply noerr_guarded; repeat noerr_step
  | |- guarded (bind (log_printf _ _) _) =>
      apply noerr_guarded; repeat noerr_step
  | |- guarded (bind _ _) => apply guarded_bind; [clean_step | intros ? ]
  | |- guarded (printf _ _) => apply noerr_guarded; repeat noerr_step
  end.

Ltac prove_guarded := repeat guarded_step.

Lemma guarded_menu_item_1 : guarded menu_item_1.
Proof.
  unfold menu_item_1, vdiv_vout, vdiv_vin, vdiv_r1, vdiv_r2. prove_guarded.
Qed.

Lemma guarded_menu_item_2 : guarded menu_item_2.
Proof.
  unfold menu_item_2, series_total, series_missing,
    parallel_req, parallel_r1, parallel_r2.
  prove_guarded.
Qed.

Lemma guarded_menu_item_3 : guarded menu_item_3.
Proof.
  unfold menu_item_3, xl_of, l_of_xl, f_of_xl, xc_of, c_of_xc, f_of_xc,
    f0_of, l_of_f0, c_of_f0.
  prove_guarded.
Qed.

Lemma guarded_menu_item_4 (c_exp c_log : double -> double) :
  guarded (menu_item_4 c_exp c_log).
Proof.
  unfold menu_item_4, rc_forward, rc_solve_t, rc_from_tau, rc_solve_c,
    rc_solve_r.
  prove_guarded.
Qed.

Lemma guarded_menu_item_5 : guarded menu_item_5.
Proof.
  unfold menu_item_5, power_p, power_v, power_i. prove_guarded.
Qed.

(** ** The main loop *)

Lemma print_menu_eq (s : state) : print_menu s = (Val tt, s, menu_text).
Proof. reflexivity. Qed.

Lemma get_choice_eof (lf : option (list call)) (lw : bool) :
  get_choice (State "" lf lw) = (Val (-1)%Z, State "" lf lw, []).
Proof. reflexivity. Qed.

Lemma get_choice_val (s : state) :
  exists c s', get_choice s = (Val c, s', []).
Proof.
  unfold get_choice, bind.
  destruct (fgets_cases 64 s ltac:(lia)) as [[E H] | (buf & rest & H & L)];
    rewrite H; simpl; eauto.
Qed.

Lemma last_app_nonempty {A} (a b : list A) (d : A) :
  b <> [] -> last (a ++ b) d = last b d.
Proof.
  intros Hb. induction a as [ | x a IH]; [reflexivity | ].
  simpl. destruct (a ++ b) eqn:E; [ | exact IH].
  apply app_eq_nil in E. tauto.
Qed.

(** [wait_back] either returns, or finds the input exhausted, says so
    and ends the process with status 1. *)
Lemma wait_back_loop_cases (fuel : nat) :
  forall s,
    (String.length (stdin s) < fuel)%nat ->
    exists s' o,
      wait_back_loop fuel s = (Val tt, s', o)
      \/ (wait_back_loop fuel s = (Exit 1%Z, s', o)
          /\ stdin s' = EmptyString
          /\ last o no_call = input_error).
Proof.
  induction fuel as [ | fuel IH]; intros s Hf; [lia | ].
  simpl wait_back_loop. rewrite printf_bind.
  destruct (fgets_cases 64 s ltac:(lia)) as [[E H] | (buf & rest & H & L)];
    rewrite (bind_val _ _ _ _ _ _ H).
  - eexists _, _. right. split; [reflexivity | ]. split; [exact E | reflexivity].
  - destruct (is_back (take_until is_eol (cstr buf))).
    + eexists _, _. left. reflexivity.
    + destruct (IH (State rest (log_file s) (log_writable s)))
        as (s' & o & [R | (R & E & La)]); [simpl; lia | | ]; rewrite R.
      * eexists _, _. left. reflexivity.
      * eexists _, _. right. split; [reflexivity | ]. split; [exact E | ].
        unfold prepend. simpl.
        destruct o as [ | c o]; [discriminate | exact La].
Qed.

Lemma wait_back_cases (s : state) :
  exists s' o,
    wait_back s = (Val tt, s', o)
    \/ (wait_back s = (Exit 1%Z, s', o)
        /\ stdin s' = EmptyString
        /\ last o no_call = input_error).
Proof. unfold wait_back. apply wait_back_loop_cases. lia. Qed.

(** A module called from the main loop, then the back prompt. *)
Lemma module_then_back (m : M unit) (s : state) :
  ok_end (ended (m s)) = true ->
  exists s' o,
    (call_void m ;;; wait_back) s = (Val tt, s', o)
    \/ ((call_void m ;;; wait_back) s = (Exit 1%Z, s', o)
        /\ stdin s' = EmptyString
        /\ last o no_call = input_error).
Proof.
  intros H. unfold bind, call_void.
  destruct (m s) as [[[[] | | c | ] s1] o1]; unfold_run; try discriminate.
  - destruct (wait_back_cases s1) as (s' & o & [R | (R & E & La)]); rewrite R.
    + eexists _, _. left. reflexivity.
    + eexists _, _. right. split; [reflexivity | ]. split; [exact E | ].
      destruct o as [ | c o]; [discriminate | ].
      rewrite last_app_nonempty; [exact La | discriminate].
  - destruct (wait_back_cases s1) as (s' & o & [R | (R & E & La)]); rewrite R.
    + eexists _, _. left. reflexivity.
    + eexists _, _. right. split; [reflexivity | ]. split; [exact E | ].
      destruct o as [ | c o]; [discriminate | ].
      rewrite last_app_nonempty; [exact La | discriminate].
Qed.

Lemma view_log_ok (s : state) : ok_end (ended (view_log s)) = true.
Proof. unfold view_log. destruct (log_file s); reflexivity. Qed.

Lemma bind_exit {A B} (m : M A) (k : A -> M B) (s s1 : state)
      (c : Z) (o1 : list call) :
  m s = (Exit c, s1, o1) -> bind m k s = (Exit c, s1, o1).
Proof. intros H. unfold bind. rewrite H. reflexivity. Qed.

Section MainLoop.

Variables c_exp c_log : double -> double.

(** One turn of the loop of [main]: it goes round again, or code 7 was
    chosen and the process ends with status 0 after "Bye!", or the input
    was exhausted at the back prompt and the process ends with status 1. *)
Lemma main_iter_cases (s : state) :
  exists s' o,
    main_iter c_exp c_log s = (Val tt, s', o)
    \/ (main_iter c_exp c_log s = (Exit 0%Z, s', o)
        /\ ended (get_choice s) = Val 7%Z
        /\ last o no_call = bye)
    \/ (main_iter c_exp c_log s = (Exit 1%Z, s', o)
        /\ stdin s' = EmptyString
        /\ last o no_call = input_error).
Proof.
  unfold main_iter.
  rewrite (bind_val _ _ _ _ _ _ (print_menu_eq s)).
  destruct (get_choice_val s) as (c & s1 & G).
  rewrite (bind_val _ _ _ _ _ _ G).
  assert (Back : forall m : M unit,
             ok_end (ended (m s1)) = true ->
             exists s' o,
               prepend menu_text (prepend [] ((call_void m ;;; wait_back) s1))
               = (Val tt, s', o)
               \/ (prepend menu_text (prepend [] ((call_void m ;;; wait_back) s1))
                   = (Exit 0%Z, s', o)
                   /\ ended (get_choice s) = Val 7%Z /\ last o no_call = bye)
               \/ (prepend menu_text (prepend [] ((call_void m ;;; wait_back) s1))
                   = (Exit 1%Z, s', o)
                   /\ stdin s' = EmptyString /\ last o no_call = input_error)).
  { intros m Hm.
    destruct (module_then_back m s1 Hm) as (s' & o & [R | (R & E & La)]);
      rewrite R; eexists _, _.
    - left. reflexivity.
    - right. right. split; [reflexivity | ]. split; [exact E | ].
      unfold prepend. simpl snd. destruct o as [ | x o]; [discriminate | ].
      rewrite last_app_nonempty; [exact La | discriminate]. }
  destruct (c =? 1)%Z; [apply Back, guarded_menu_item_1 | ].
  destruct (c =? 2)%Z; [apply Back, guarded_menu_item_2 | ].
  destruct (c =? 3)%Z; [apply Back, guarded_menu_item_3 | ].
  destruct (c =? 4)%Z; [apply Back, guarded_menu_item_4 | ].
  destruct (c =? 5)%Z; [apply Back, guarded_menu_item_5 | ].
  destruct (c =? 6)%Z; [apply Back, view_log_ok | ].
  destruct (c =? 7)%Z eqn:E7.
  - apply Z.eqb_eq in E7. subst c. eexists _, _. right. left.
    split; [reflexivity | ]. split; [rewrite G; reflexivity | ].
    reflexivity.
  - eexists _, _. left. reflexivity.
Qed.

(** [main] after [n] turns of its loop: still running, or ended in one of
    the two ways a turn can end the process. *)
Lemma main_cases (n : nat) :
  forall s,
    exists s' o,
      main c_exp c_log n s = (Fuel, s', o)
      \/ (main c_exp c_log n s = (Exit 0%Z, s', o) /\ last o no_call = bye)
      \/ (main c_exp c_log n s = (Exit 1%Z, s', o)
          /\ stdin s' = EmptyString /\ last o no_call = input_error).
Proof.
  induction n as [ | n IH]; intros s.
  - eexists _, _. left. reflexivity.
  - simpl main.
    destruct (main_iter_cases s) as (s1 & o1 & [R | [(R & _ & La) | (R & E & La)]]).
    + rewrite (bind_val _ _ _ _ _ _ R).
      destruct (IH s1) as (s' & o & [M | [(M & Lb) | (M & E & Lb)]]);
        rewrite M; eexists _, _.
      * left. reflexivity.
      * right. left. split; [reflexivity | ].
        unfold prepend. simpl snd. destruct o as [ | x o]; [discriminate | ].
        rewrite last_app_nonempty; [exact Lb | discriminate].
      * right. right. split; [reflexivity | ]. split; [exact E | ].
        unfold prepend. simpl snd. destruct o as [ | x o]; [discriminate | ].
        rewrite last_app_nonempty; [exact Lb | discriminate].
    + rewrite (bind_exit _ _ _ _ _ _ R). eexists _, _. right. left. auto.
    + rewrite (bind_exit _ _ _ _ _ _ R). eexists _, _. right. right. auto.
Qed.

Lemma main_iter_eof (lf : option (list call)) (lw : bool) :
  main_iter c_exp c_log (State "" lf lw)
  = (Val tt, State "" lf lw, menu_text ++ [invalid_choice]).
Proof. reflexivity. Qed.

Lemma main_eof (n : nat) (lf : option (list call)) (lw : bool) :
  main c_exp c_log n (State "" lf lw) = (Fuel, State "" lf lw, spin n).
Proof.
  induction n as [ | n IH]; [reflexivity | ].
  simpl main. rewrite (bind_val _ _ _ _ _ _ (main_iter_eof lf lw)), IH.
  unfold prepend. cbn [fst snd spin]. rewrite <- app_assoc. reflexivity.
Qed.

End MainLoop.

(** C10. At the main menu the end of the input does not end the process:
    [get_choice] returns -1 when no line can be read, the dispatch answers
    -1 with "Invalid choice." and goes round the loop, and [main] is still
    running after any number of turns, having printed the menu and
    "Invalid choice." once per turn. Whatever the input is, after any
    number of turns [main] is either still running, or has ended with
    status 0 after printing "Bye!" (the case 7 of the dispatch, reached
    only when [get_choice] returns 7), or has ended with status 1 after
    printing "Input error. Exiting." with the input exhausted (the end of
    the input at the back prompt). *)
Theorem main_loop_spec (c_exp c_log : double -> double) :
  (forall lf lw,
      get_choice (State "" lf lw) = (Val (-1)%Z, State "" lf lw, []))
  /\ (forall lf lw,
      main_iter c_exp c_log (State "" lf lw)
      = (Val tt, State "" lf lw, menu_text ++ [invalid_choice]))
  /\ (forall n lf lw,
      main c_exp c_log n (State "" lf lw) = (Fuel, State "" lf lw, spin n))
  /\ (forall s, exists s' o,
        main_iter c_exp c_log s = (Val tt, s', o)
        \/ (main_iter c_exp c_log s = (Exit 0%Z, s', o)
            /\ ended (get_choice s) = Val 7%Z
            /\ last o no_call = bye)
        \/ (main_iter c_exp c_log s = (Exit 1%Z, s', o)
            /\ stdin s' = EmptyString
            /\ last o no_call = input_error))
  /\ (forall n s, exists s' o,
        main c_exp c_log n s = (Fuel, s', o)
        \/ (main c_exp c_log n s = (Exit 0%Z, s', o) /\ last o no_call = bye)
        \/ (main c_exp c_log n s = (Exit 1%Z, s', o)
            /\ stdin s' = EmptyString /\ last o no_call = input_error)).
Proof.
  split; [exact get_choice_eof | ].
  split; [exact (main_iter_eof c_exp c_log) | ].
  split; [intros n lf lw; apply main_eof | ].
  split; [exact (main_iter_cases c_exp c_log) | ].
  intros n s. apply main_cases.
Qed.

(** ** Quotients that are not numbers *)











(** ** Errors and displayed results *)


(** C2 (the code departs from it). The RC module divides by [tau] (modes
    1 and 3) and by [log(1 - pct/100)] (modes 4 and 5) with a plain [/].
    With R = C = 1e-7 the time constant is 1e-14, a denominator that
    [safe_divide] rejects, and mode 1 reports no error and displays its
    results; with R = C = 1e-200 and t = 0 it divides 0 by 0 and gives the
    NaN to [exp]. With pct = 1e-20 the argument of [log] is 1.0, and modes
    4 and 5 divide -t by [log(1.0)], which is 0, and display the quotient:
    -1/0 is minus infinity. *)
Theorem rc_divides_unguarded (c_exp c_log : double -> double) :
  (((1e-7 * 1e-7) <? eps) = true
   /\ safe_divide (- (1)) (1e-7 * 1e-7) = (false, 0)
   /\ has_error (printed (menu_item_4 c_exp c_log
                   (start (lines ["1"; "1e-7"; "1e-7"; "1"]%string)))) = false
   /\ displayed (menu_item_4 c_exp c_log
                   (start (lines ["1"; "1e-7"; "1e-7"; "1"]%string)))
      = [1e-7 * 1e-7;
         100 * (1 - c_exp (- (1) / (1e-7 * 1e-7)));
         100 * c_exp (- (1) / (1e-7 * 1e-7))])
  /\ (1e-200 * 1e-200 = 0
      /\ - 0 / 0 = nan
      /\ has_error (printed (menu_item_4 c_exp c_log
                      (start (lines ["1"; "1e-200"; "1e-200"; "0"]%string))))
         = false
      /\ displayed (menu_item_4 c_exp c_log
                      (start (lines ["1"; "1e-200"; "1e-200"; "0"]%string)))
         = [0; 100 * (1 - c_exp nan); 100 * c_exp nan])
  /\ (displayed (menu_item_4 c_exp c_log
                   (start (lines ["3"; "1e-14"; "1"]%string)))
      = [100 * (1 - c_exp (- (1) / 1e-14)); 100 * c_exp (- (1) / 1e-14)])
  /\ (1 - 1e-20 / 100 = 1
      /\ - (1) / 0 = neg_infinity
      /\ neg_infinity / 1 = neg_infinity
      /\ has_error (printed (menu_item_4 c_exp c_log
                      (start (lines ["4"; "1"; "1e-20"; "1"]%string)))) = false
      /\ displayed (menu_item_4 c_exp c_log
                      (start (lines ["4"; "1"; "1e-20"; "1"]%string)))
         = [- (1) / c_log 1 / 1; - (1) / c_log 1]
      /\ displayed (menu_item_4 c_exp c_log
                      (start (lines ["5"; "1"; "1e-20"; "1"]%string)))
         = [- (1) / c_log 1 / 1; - (1) / c_log 1]).
Proof.
  repeat split; vm_compute; reflexivity.
Qed.

(** ** The end of the input *)

Lemma string_app_empty (s : string) : (s ++ "")%string = s.
Proof. induction s; simpl; congruence. Qed.




Section ReadLoopEof.

Context {A : Type} (parse : string -> option A) (msg : string).
Hypothesis msg_quiet : quiet [Call msg []] = true.


End ReadLoopEof.

































(** * Further properties *)

(** ** trim_newline and read_line *)

Lemma take_until_clean (p : ascii -> bool) (s : string) :
  all_chars (fun c => negb (p c)) (take_until p s) = true.
Proof.
  induction s as [ | c s IH]; [reflexivity | ].
  simpl. destruct (p c) eqn:E; [reflexivity | ].
  simpl. rewrite E. exact IH.
Qed.

Lemma take_until_id (p : ascii -> bool) (s : string) :
  all_chars (fun c => negb (p c)) s = true -> take_until p s = s.
Proof.
  induction s as [ | c s IH]; [reflexivity | ].
  simpl. intros H. apply andb_prop in H as [H1 H2].
  apply negb_true_iff in H1. rewrite H1, (IH H2). reflexivity.
Qed.

(** What [take_until] cuts off starts with a character it stops at. *)
Lemma take_until_split (p : ascii -> bool) (s : string) :
  exists t,
    s = (take_until p s ++ t)%string
    /\ (t = EmptyString \/ exists c t', t = String c t' /\ p c = true).
Proof.
  induction s as [ | c s (t & E & H)].
  - exists EmptyString. auto.
  - simpl. destruct (p c) eqn:Pc.
    + exists (String c s). split; [reflexivity | right; eauto].
    + exists t. simpl. split; [congruence | exact H].
Qed.

Lemma take_until_length (p : ascii -> bool) (s : string) :
  (String.length (take_until p s) <= String.length s)%nat.
Proof.
  induction s as [ | c s IH]; simpl; [lia | ].
  destruct (p c); simpl; lia.
Qed.

Lemma all_chars_take_until (q p : ascii -> bool) (s : string) :
  all_chars q s = true -> all_chars q (take_until p s) = true.
Proof.
  induction s as [ | c s IH]; [reflexivity | ].
  simpl. intros H. apply andb_prop in H as [H1 H2].
  destruct (p c); [reflexivity | ]. simpl. rewrite H1. auto.
Qed.

(** X1. [trim_newline] returns the part of its argument that precedes
    the first [\r] or [\n]: the result holds neither character, what was
    cut off is empty or starts with one of them, a string that holds
    neither is returned as it is, and trimming twice is trimming once. *)
Theorem trim_newline_spec (s : string) :
  all_chars not_eol (trim_newline s) = true
  /\ (exists t,
         s = (trim_newline s ++ t)%string
         /\ (t = EmptyString
             \/ exists c t', t = String c t' /\ is_eol c = true))
  /\ (all_chars not_eol s = true -> trim_newline s = s)
  /\ trim_newline (trim_newline s) = trim_newline s.
Proof.
  unfold trim_newline, not_eol. repeat split.
  - apply take_until_clean.
  - apply take_until_split.
  - apply take_until_id.
  - apply take_until_id, take_until_clean.
Qed.

Lemma fgets_take_spec (n : nat) (s : string) :
  (fst (fgets_take n s) ++ snd (fgets_take n s))%string = s
  /\ (String.length (fst (fgets_take n s)) <= n)%nat.
Proof.
  revert s. induction n as [ | n IH]; intros s.
  - simpl. split; [reflexivity | lia].
  - destruct s as [ | c s]; simpl; [split; [reflexivity | lia] | ].
    destruct (Ascii.eqb c LF); simpl; [split; [reflexivity | lia] | ].
    specialize (IH s). destruct (fgets_take n s) as [l r]. simpl in *.
    destruct IH as [E L]. split; [congruence | lia].
Qed.

(** X2. [read_line] with the 128-byte buffer of [read_int] and
    [read_double]: at the end of the input it fails and leaves the state
    as it was; otherwise it takes a non-empty piece of at most 127
    characters from the front of the input, leaves the rest unread and
    the log file alone, and returns the part of that piece that precedes
    its first NUL, [\r] or [\n]: a line of at most 127 characters holding
    none of the three. Either way it prints the prompt and nothing else. *)
Theorem read_line_spec (p : option string) (s : state) :
  (stdin s = EmptyString /\ read_line p 128 s = (Val None, s, prompt_calls p))
  \/ (exists used rest,
         stdin s = (used ++ rest)%string
         /\ used <> EmptyString
         /\ (String.length used <= 127)%nat
         /\ read_line p 128 s
            = (Val (Some (trim_newline (cstr used))),
               State rest (log_file s) (log_writable s), prompt_calls p)
         /\ (String.length (trim_newline (cstr used)) <= 127)%nat
         /\ all_chars not_eol (trim_newline (cstr used)) = true
         /\ all_chars not_nul (trim_newline (cstr used)) = true).
Proof.
  destruct (stdin s) as [ | c t] eqn:E.
  - left. split; [reflexivity | ].
    unfold read_line, bind, fgets. rewrite E. simpl.
    rewrite app_nil_r. reflexivity.
  - right. pose proof (fgets_take_spec 127 (String c t)) as [Happ Hlen].
    pose proof (fgets_take_shrinks 127 (String c t) ltac:(lia)
                                   ltac:(discriminate)) as Hsh.
    unfold read_line, bind, fgets. rewrite E.
    change (128 - 1)%nat with 127%nat.
    destruct (fgets_take 127 (String c t)) as [used rest]. simpl in *.
    exists used, rest. repeat split; auto.
    + intros ->. simpl in Happ. subst rest. simpl in Hsh. lia.
    + rewrite app_nil_r. reflexivity.
    + unfold trim_newline, cstr.
      pose proof (take_until_length is_eol (take_until is_nul used)).
      pose proof (take_until_length is_nul used). lia.
    + unfold trim_newline, not_eol. apply take_until_clean.
    + unfold trim_newline, cstr, not_nul.
      apply all_chars_take_until, take_until_clean.
Qed.

(** ** Leading white space *)

Lemma spaces_acc (s : string) (n : nat) :
  Strtol.spaces s (S n)
  = (S (fst (Strtol.spaces s n)), snd (Strtol.spaces s n)).
Proof.
  revert n. induction s as [ | c s IH]; intros n; [reflexivity | ].
  simpl. destruct (isspace c); [apply IH | reflexivity].
Qed.

Lemma add_succ_nonzero (a b : nat) : Nat.eqb (a + S b) 0 = false.
Proof. apply Nat.eqb_neq. lia. Qed.

(** [strtol] on a string that starts with a white-space character: the
    conversion of what follows, one character further. *)
Lemma strtol_space (c : ascii) (s : string) (base : Z) :
  isspace c = true ->
  Strtol.strtol (String c s) base
  = if Nat.eqb (Strtol.consumed (Strtol.strtol s base)) 0
    then Strtol.no_conversion (String c s)
    else Strtol.mk (Strtol.value (Strtol.strtol s base))
                   (Strtol.erange (Strtol.strtol s base))
                   (S (Strtol.consumed (Strtol.strtol s base)))
                   (Strtol.rest (Strtol.strtol s base)).
Proof.
  intros Hc. unfold Strtol.strtol.
  destruct (negb ((base =? 0)%Z || (2 <=? base)%Z && (base <=? 36)%Z));
    [reflexivity | ].
  simpl Strtol.spaces. rewrite Hc, spaces_acc.
  destruct (Strtol.spaces s 0) as [nsp s1]. simpl fst. simpl snd.
  destruct (Strtol.sign s1) as [[neg nsg] s2].
  destruct (match Strtol.hex_prefix s2 with
            | Some s3 =>
                if (base =? 0)%Z || (base =? 16)%Z
                then (16%Z, 2%nat, s3) else (base, 0%nat, s2)
            | None =>
                if (base =? 0)%Z
                then if Strtol.starts_with_zero s2
                     then (8%Z, 0%nat, s2) else (10%Z, 0%nat, s2)
                else (base, 0%nat, s2)
            end) as [[b npre] s3].
  destruct (Strtol.digits b s3 0 0) as [[m nd] s4].
  destruct nd as [ | nd]; [reflexivity | ].
  destruct (Strtol.clamp neg m) as [v e]. simpl.
  rewrite add_succ_nonzero. reflexivity.
Qed.

Lemma mantissa_length (base : Z) (s r : string) (m : Z) (nf nm : nat) :
  Strtod.mantissa base s = Some (m, nf, nm, r) -> nm <> 0%nat.
Proof.
  unfold Strtod.mantissa.
  destruct (Strtol.digits base s 0 0) as [[m1 n1] s1].
  destruct s1 as [ | c s2].
  - destruct (Nat.eqb n1 0) eqn:E; [discriminate | ].
    intros [= _ _ <- _]. apply Nat.eqb_neq, E.
  - destruct (Ascii.eqb c ".") eqn:Ec.
    + apply Ascii.eqb_eq in Ec. subst c.
      destruct (Strtol.digits base s2 m1 0) as [[m2 n2] s3].
      destruct (Nat.eqb (n1 + n2) 0); [discriminate | ].
      intros [= _ _ <- _]. lia.
    + assert (H : match String c s2 with
                  | String "." s2' =>
                      let '(m2, n2, s3) := Strtol.digits base s2' m1 0 in
                      if Nat.eqb (n1 + n2) 0 then None
                      else Some (m2, n2, (n1 + 1 + n2)%nat, s3)
                  | _ => if Nat.eqb n1 0 then None
                         else Some (m1, 0%nat, n1, String c s2)
                  end
                  = if Nat.eqb n1 0 then None
                    else Some (m1, 0%nat, n1, String c s2)).
      { destruct c as [[ | ] [ | ] [ | ] [ | ] [ | ] [ | ] [ | ] [ | ]];
          try reflexivity; discriminate. }
      rewrite H. destruct (Nat.eqb n1 0) eqn:E; [discriminate | ].
      intros [= _ _ <- _]. apply Nat.eqb_neq, E.
Qed.

(** [strtod] on a string that starts with a white-space character. *)
Lemma strtod_space (c : ascii) (s : string) :
  isspace c = true ->
  Strtod.strtod (String c s)
  = if Nat.eqb (Strtod.consumed (Strtod.strtod s)) 0
    then Strtod.no_conversion (String c s)
    else Strtod.mk (Strtod.value (Strtod.strtod s))
                   (Strtod.erange (Strtod.strtod s))
                   (S (Strtod.consumed (Strtod.strtod s)))
                   (Strtod.rest (Strtod.strtod s)).
Proof.
  intros Hc. unfold Strtod.strtod.
  simpl Strtol.spaces. rewrite Hc, spaces_acc.
  destruct (Strtol.spaces s 0) as [nsp s1]. simpl fst. simpl snd.
  destruct (Strtol.sign s1) as [[neg nsg] s2].
  destruct (Strtod.strip_ci "infinity" s2) as [s3 | ];
    [simpl; rewrite add_succ_nonzero; reflexivity | ].
  destruct (Strtod.strip_ci "inf" s2) as [s3 | ];
    [simpl; rewrite add_succ_nonzero; reflexivity | ].
  destruct (Strtod.strip_ci "nan" s2) as [s3 | ].
  { destruct (Strtod.nan_payload s3) as [np s4]. simpl.
    destruct (Nat.eqb (nsp + nsg + 3 + np) 0) eqn:E;
      [apply Nat.eqb_eq in E; lia | reflexivity]. }
  destruct (match Strtod.strip_ci "0x" s2 with
            | Some s3 => Strtod.mantissa 16 s3
            | None => None
            end) as [[[[m nf] nm] s4] | ].
  { destruct (Strtod.exponent "p" s4) as [[e ne] s5].
    destruct (Strtod.binary neg m (e - 4 * Z.of_nat nf)) as [v r]. simpl.
    destruct (Nat.eqb (nsp + nsg + 2 + nm + ne) 0) eqn:E;
      [apply Nat.eqb_eq in E; lia | reflexivity]. }
  destruct (Strtod.mantissa 10 s2) as [[[[m nf] nm] s4] | ] eqn:Hm;
    [ | reflexivity].
  apply mantissa_length in Hm.
  destruct (Strtod.exponent "e" s4) as [[e ne] s5].
  destruct (Strtod.decimal neg m (e - Z.of_nat nf)) as [v r]. simpl.
  destruct (Nat.eqb (nsp + nsg + nm + ne) 0) eqn:E;
    [apply Nat.eqb_eq in E; lia | reflexivity].
Qed.

Lemma strtol_empty (base : Z) :
  Strtol.strtol EmptyString base = Strtol.no_conversion EmptyString.
Proof.
  unfold Strtol.strtol.
  destruct (negb ((base =? 0)%Z || (2 <=? base)%Z && (base <=? 36)%Z));
    [reflexivity | ].
  simpl. destruct (base =? 0)%Z; reflexivity.
Qed.

Lemma parse_long_space (c : ascii) (s : string) (base : Z) :
  isspace c = true -> parse_long (String c s) base = parse_long s base.
Proof.
  intros Hc. unfold parse_long. rewrite (strtol_space c s base Hc).
  simpl is_empty. destruct s as [ | c' s'].
  - rewrite strtol_empty. reflexivity.
  - simpl is_empty.
    destruct (Nat.eqb (Strtol.consumed (Strtol.strtol (String c' s') base)) 0)
      eqn:E; simpl.
    + destruct (Strtol.erange _); reflexivity.
    + reflexivity.
Qed.

Lemma parse_double_space (c : ascii) (s : string) :
  isspace c = true -> parse_double (String c s) = parse_double s.
Proof.
  intros Hc. unfold parse_double. rewrite (strtod_space c s Hc).
  simpl is_empty. destruct s as [ | c' s'].
  - reflexivity.
  - simpl is_empty.
    destruct (Nat.eqb (Strtod.consumed (Strtod.strtod (String c' s'))) 0)
      eqn:E; simpl.
    + destruct (Strtod.erange _); reflexivity.
    + reflexivity.
Qed.

(** X3. Both strict parsers ignore leading white space: a string that
    starts with any number of characters [isspace] accepts (space, tab,
    newline, vertical tab, form feed, carriage return) is accepted or
    rejected as the string without them is, with the same value. *)
Theorem leading_space_ignored (ws s : string) (base : Z) :
  all_chars isspace ws = true ->
  parse_long (ws ++ s) base = parse_long s base
  /\ parse_double (ws ++ s) = parse_double s.
Proof.
  induction ws as [ | c ws IH]; intros H; [split; reflexivity | ].
  simpl in H. apply andb_prop in H as [Hc Hws]. destruct (IH Hws) as [I1 I2].
  simpl. rewrite (parse_long_space _ _ _ Hc), (parse_double_space _ _ Hc).
  auto.
Qed.

Lemma leading_space_ignored_witness :
  parse_long (String TAB (String LF " ") ++ "-42") 10 = parse_long "-42" 10
  /\ parse_double (String TAB (String LF " ") ++ "-42") = parse_double "-42".
Proof.
  apply (leading_space_ignored (String TAB (String LF " ")) "-42" 10).
  reflexivity.
Defined.

(** ** parse_long on numerals *)

(** [strtol] in base 10, where the prefix "0x" plays no part. *)
Lemma strtol10_unfold (s : string) :
  Strtol.strtol s 10
  = let '(nsp, s1) := Strtol.spaces s 0 in
    let '(neg, nsg, s2) := Strtol.sign s1 in
    let '(m, nd, s4) := Strtol.digits 10 s2 0 0 in
    match nd with
    | O => Strtol.no_conversion s
    | _ => let '(v, e) := Strtol.clamp neg m in
           Strtol.mk v e (nsp + nsg + 0 + nd) s4
    end.
Proof.
  unfold Strtol.strtol.
  change (negb ((10 =? 0)%Z || (2 <=? 10)%Z && (10 <=? 36)%Z)) with false.
  cbv iota.
  destruct (Strtol.spaces s 0) as [nsp s1].
  destruct (Strtol.sign s1) as [[neg nsg] s2].
  destruct (Strtol.hex_prefix s2); reflexivity.
Qed.

(** A decimal digit is neither white space nor a sign. *)
Lemma digit_not_space_sign (c : ascii) (d : Z) :
  digit_in 10 c = Some d ->
  isspace c = false /\ is_blank c = false
  /\ forall s, Strtol.sign (String c s) = (false, 0%nat, String c s).
Proof.
  destruct c as [[ | ] [ | ] [ | ] [ | ] [ | ] [ | ] [ | ] [ | ]];
    intros H; try discriminate H; repeat split.
Qed.

Lemma digit_in_digit_char (d : Z) :
  is_decimal_digit d -> digit_in 10 (digit_char d) = Some d.
Proof.
  unfold is_decimal_digit. intros H.
  assert (E : (d = 0 \/ d = 1 \/ d = 2 \/ d = 3 \/ d = 4 \/ d = 5 \/ d = 6
               \/ d = 7 \/ d = 8 \/ d = 9)%Z) by lia.
  repeat (destruct E as [E | E]; [subst d; reflexivity | ]).
  subst d. reflexivity.
Qed.

(** The digits of a numeral are all read, with their positional value. *)
Lemma digits_numeral (ds : list Z) :
  Forall is_decimal_digit ds ->
  forall rest acc n,
    Strtol.digits 10 (numeral ds ++ rest) acc n
    = Strtol.digits 10 rest
                    (fold_left (fun a d => (a * 10 + d)%Z) ds acc)
                    (n + List.length ds).
Proof.
  induction 1 as [ | d ds Hd Hds IH]; intros rest acc n.
  - simpl. rewrite Nat.add_0_r. reflexivity.
  - simpl. rewrite (digit_in_digit_char d Hd), IH.
    f_equal. lia.
Qed.

Lemma numeral_value_nonneg (ds : list Z) :
  Forall is_decimal_digit ds ->
  forall acc, (0 <= acc)%Z ->
              (0 <= fold_left (fun a d => (a * 10 + d)%Z) ds acc)%Z.
Proof.
  induction 1 as [ | d ds Hd Hds IH]; intros acc Ha; [exact Ha | ].
  simpl. apply IH. unfold is_decimal_digit in Hd. lia.
Qed.

Lemma spaces_nonspace (c : ascii) (s : string) (n : nat) :
  isspace c = false -> Strtol.spaces (String c s) n = (n, String c s).
Proof. intros H. simpl. rewrite H. reflexivity. Qed.

Lemma sign_minus (s : string) :
  Strtol.sign (String "-" s) = (true, 1%nat, s).
Proof. reflexivity. Qed.

Lemma strtol_numeral (neg : bool) (ds : list Z) :
  ds <> [] -> Forall is_decimal_digit ds ->
  Strtol.strtol ((if neg then "-" else "") ++ numeral ds) 10
  = let '(v, e) := Strtol.clamp neg (numeral_value ds) in
    Strtol.mk v e ((if neg then 1 else 0) + List.length ds) EmptyString.
Proof.
  intros Hne Hds. rewrite strtol10_unfold.
  destruct ds as [ | d ds]; [congruence | ].
  inversion Hds as [ | ? ? Hd Hds']; subst.
  pose proof (digit_not_space_sign _ _ (digit_in_digit_char d Hd))
    as (Hsp & _ & Hsg).
  pose proof (digits_numeral (d :: ds) Hds EmptyString 0%Z 0%nat) as D.
  rewrite string_app_empty in D.
  change (Strtol.digits 10 "" ?a ?n) with (a, n, EmptyString) in D.
  change (0 + List.length (d :: ds))%nat with (S (List.length ds)) in D.
  fold (numeral_value (d :: ds)) in D.
  destruct neg.
  - change (("-" ++ numeral (d :: ds))%string)
      with (String "-" (numeral (d :: ds))).
    rewrite (spaces_nonspace "-" _ 0 eq_refl). cbv beta iota.
    rewrite sign_minus. cbv beta iota. rewrite D. cbv beta iota.
    destruct (Strtol.clamp true _) as [v e]. reflexivity.
  - change (("" ++ numeral (d :: ds))%string)
      with (String (digit_char d) (numeral ds)).
    rewrite (spaces_nonspace _ _ 0 Hsp). cbv beta iota.
    rewrite Hsg. cbv beta iota.
    change (String (digit_char d) (numeral ds)) with (numeral (d :: ds)).
    rewrite D. cbv beta iota.
    destruct (Strtol.clamp false _) as [v e]. reflexivity.
Qed.

Lemma clamp_nonneg (v : Z) :
  (0 <= v)%Z ->
  Strtol.clamp false v
  = if (v <=? LONG_MAX)%Z then (v, false) else (LONG_MAX, true).
Proof.
  intros H. unfold Strtol.clamp. rewrite Z.gtb_ltb.
  destruct (Z.ltb_spec LONG_MAX v), (Z.leb_spec v LONG_MAX),
    (Z.ltb_spec v LONG_MIN);
    try reflexivity; unfold LONG_MAX, LONG_MIN in *; lia.
Qed.

Lemma clamp_nonpos (v : Z) :
  (0 <= v)%Z ->
  Strtol.clamp true v
  = if (LONG_MIN <=? - v)%Z then ((- v)%Z, false) else (LONG_MIN, true).
Proof.
  intros H. unfold Strtol.clamp. rewrite Z.gtb_ltb.
  destruct (Z.ltb_spec LONG_MAX (- v)), (Z.leb_spec LONG_MIN (- v)),
    (Z.ltb_spec (- v) LONG_MIN);
    try reflexivity; unfold LONG_MAX, LONG_MIN in *; lia.
Qed.

(** X4. [parse_long] in base 10 on a numeral, one or more decimal
    digits with or without a minus sign: it returns the number the
    numeral denotes when that is in the range of [long] (leading zeros
    change nothing), and rejects the numeral when it is not. *)
Theorem parse_long_numeral (ds : list Z) :
  ds <> [] -> Forall is_decimal_digit ds ->
  parse_long (numeral ds) 10
  = (if (numeral_value ds <=? LONG_MAX)%Z
     then Some (numeral_value ds) else None)
  /\ parse_long ("-" ++ numeral ds) 10
     = (if (LONG_MIN <=? - numeral_value ds)%Z
        then Some (- numeral_value ds)%Z else None).
Proof.
  intros Hne Hds.
  pose proof (numeral_value_nonneg ds Hds 0%Z ltac:(lia)) as Hv.
  fold (numeral_value ds) in Hv.
  assert (Hs : is_empty (numeral ds) = false)
    by (destruct ds; [congruence | reflexivity]).
  assert (Hl : Nat.eqb (List.length ds) 0 = false)
    by (destruct ds; [congruence | reflexivity]).
  split.
  - unfold parse_long. rewrite Hs.
    pose proof (strtol_numeral false ds Hne Hds) as E.
    change ((if false then "-" else "") ++ numeral ds)%string
      with (numeral ds) in E.
    rewrite E, (clamp_nonneg _ Hv).
    destruct (numeral_value ds <=? LONG_MAX)%Z; cbv beta iota zeta;
      [ | reflexivity].
    simpl Strtol.erange. simpl Strtol.consumed. cbv beta iota.
    rewrite Hl. reflexivity.
  - unfold parse_long.
    change (is_empty ("-" ++ numeral ds)) with false.
    pose proof (strtol_numeral true ds Hne Hds) as E.
    change ((if true then "-" else "") ++ numeral ds)%string
      with ("-" ++ numeral ds)%string in E.
    rewrite E, (clamp_nonpos _ Hv).
    destruct (LONG_MIN <=? - numeral_value ds)%Z; cbv beta iota zeta;
      [ | reflexivity].
    simpl Strtol.erange. simpl Strtol.consumed. cbv beta iota.
    reflexivity.
Qed.

Lemma parse_long_numeral_witness :
  parse_long (numeral [0; 4; 2]%Z) 10
  = (if (numeral_value [0; 4; 2]%Z <=? LONG_MAX)%Z
     then Some (numeral_value [0; 4; 2]%Z) else None)
  /\ parse_long ("-" ++ numeral [0; 4; 2]%Z) 10
     = (if (LONG_MIN <=? - numeral_value [0; 4; 2]%Z)%Z
        then Some (- numeral_value [0; 4; 2]%Z)%Z else None).
Proof.
  apply (parse_long_numeral [0; 4; 2]%Z).
  - discriminate.
  - repeat constructor; unfold is_decimal_digit; lia.
Defined.

(** ** What follows an integer *)

Lemma all_chars_app (p : ascii -> bool) (a b : string) :
  all_chars p (a ++ b) = all_chars p a && all_chars p b.
Proof.
  induction a as [ | c a IH]; [reflexivity | ].
  simpl. rewrite IH, andb_assoc. reflexivity.
Qed.

Lemma spaces_app (s t : string) (n : nat) :
  snd (Strtol.spaces s n) <> EmptyString ->
  Strtol.spaces (s ++ t) n
  = (fst (Strtol.spaces s n), (snd (Strtol.spaces s n) ++ t)%string).
Proof.
  revert n. induction s as [ | c s IH]; intros n H; [simpl in H; congruence | ].
  simpl in *. destruct (isspace c); [apply IH, H | reflexivity].
Qed.

Lemma spaces_all (s t : string) (n : nat) :
  snd (Strtol.spaces s n) = EmptyString -> all_chars isspace t = true ->
  snd (Strtol.spaces (s ++ t) n) = EmptyString.
Proof.
  revert n. induction s as [ | c s IH]; intros n H Ht.
  - simpl. clear H. revert n. induction t as [ | c t IHt]; intros n;
      [reflexivity | ].
    simpl in *. apply andb_prop in Ht as [Hc Ht]. rewrite Hc. auto.
  - simpl in *. destruct (isspace c); [auto | discriminate].
Qed.

Lemma sign_app (s t : string) :
  s <> EmptyString ->
  Strtol.sign (s ++ t)
  = (fst (fst (Strtol.sign s)), snd (fst (Strtol.sign s)),
     (snd (Strtol.sign s) ++ t)%string).
Proof.
  destruct s as [ | c s]; [congruence | ]. intros _.
  destruct c as [[ | ] [ | ] [ | ] [ | ] [ | ] [ | ] [ | ] [ | ]];
    reflexivity.
Qed.

Lemma digits_stops (t : string) (acc : Z) (n : nat) :
  stops t = true -> Strtol.digits 10 t acc n = (acc, n, t).
Proof.
  destruct t as [ | c t]; [reflexivity | ].
  simpl. destruct (digit_in 10 c); [discriminate | reflexivity].
Qed.

Lemma digits_app (s t : string) :
  stops t = true ->
  forall acc n,
    Strtol.digits 10 (s ++ t) acc n
    = (fst (fst (Strtol.digits 10 s acc n)),
       snd (fst (Strtol.digits 10 s acc n)),
       (snd (Strtol.digits 10 s acc n) ++ t)%string).
Proof.
  intros Ht. induction s as [ | c s IH]; intros acc n.
  - simpl. apply digits_stops, Ht.
  - simpl. destruct (digit_in 10 c); [apply IH | reflexivity].
Qed.

(** [strtol] in base 10 on a string it converts, followed by something
    that does not start with a decimal digit: the same conversion. *)
Lemma strtol_app (s t : string) :
  Strtol.consumed (Strtol.strtol s 10) <> 0%nat -> stops t = true ->
  Strtol.strtol (s ++ t) 10
  = Strtol.mk (Strtol.value (Strtol.strtol s 10))
              (Strtol.erange (Strtol.strtol s 10))
              (Strtol.consumed (Strtol.strtol s 10))
              (Strtol.rest (Strtol.strtol s 10) ++ t).
Proof.
  rewrite !strtol10_unfold. intros Hc Ht.
  destruct (Strtol.spaces s 0) as [nsp s1] eqn:Es.
  destruct s1 as [ | c1 s1'].
  { exfalso. apply Hc. reflexivity. }
  rewrite (spaces_app s t 0) by (rewrite Es; discriminate).
  rewrite Es. simpl fst. simpl snd. cbv beta iota.
  rewrite (sign_app (String c1 s1') t) by discriminate.
  destruct (Strtol.sign (String c1 s1')) as [[neg nsg] s2].
  simpl fst. simpl snd. cbv beta iota.
  rewrite (digits_app s2 t Ht).
  destruct (Strtol.digits 10 s2 0 0) as [[m nd] s4].
  simpl fst. simpl snd. cbv beta iota.
  destruct nd as [ | nd]; [exfalso; apply Hc; reflexivity | ].
  destruct (Strtol.clamp neg m) as [v e]. reflexivity.
Qed.

(** [strtol] in base 10 on a string it does not convert, followed by
    white space: no conversion either. *)
Lemma strtol_app_none (s t : string) :
  Strtol.consumed (Strtol.strtol s 10) = 0%nat ->
  all_chars isspace t = true ->
  Strtol.consumed (Strtol.strtol (s ++ t) 10) = 0%nat.
Proof.
  rewrite !strtol10_unfold. intros Hc Ht.
  assert (Hstop : stops t = true).
  { destruct t as [ | c t]; [reflexivity | ]. simpl in *.
    apply andb_prop in Ht as [Hsp _].
    destruct (digit_in 10 c) eqn:D; [ | reflexivity].
    apply digit_not_space_sign in D as (D & _). congruence. }
  destruct (Strtol.spaces s 0) as [nsp s1] eqn:Es.
  destruct s1 as [ | c1 s1'].
  - pose proof (spaces_all s t 0 ltac:(rewrite Es; reflexivity) Ht) as E.
    destruct (Strtol.spaces (s ++ t) 0) as [nsp' s1']. simpl in E. subst s1'.
    reflexivity.
  - rewrite (spaces_app s t 0) by (rewrite Es; discriminate).
    rewrite Es. simpl fst. simpl snd. cbv beta iota.
    rewrite (sign_app (String c1 s1') t) by discriminate.
    destruct (Strtol.sign (String c1 s1')) as [[neg nsg] s2].
    simpl fst. simpl snd. cbv beta iota.
    rewrite (digits_app s2 t Hstop).
    destruct (Strtol.digits 10 s2 0 0) as [[m nd] s4].
    simpl fst. simpl snd. cbv beta iota.
    destruct nd as [ | nd]; [reflexivity | ].
    destruct (Strtol.clamp neg m) as [v e]. simpl in Hc. lia.
Qed.

Lemma blank_stops (t : string) : all_chars is_blank t = true -> stops t = true.
Proof.
  destruct t as [ | c t]; [reflexivity | ]. simpl. intros H.
  apply andb_prop in H as [Hc _].
  destruct (digit_in 10 c) eqn:D; [ | reflexivity].
  apply digit_not_space_sign in D as (_ & D & _). congruence.
Qed.

(** X5. An integer that [parse_long] accepts in base 10 stays accepted,
    with the same value, when spaces and tabs are added after it, and is
    rejected when what is added starts with a character that is neither a
    space, a tab nor a decimal digit. *)
Theorem parse_long_followed (s t : string) (v : Z) :
  parse_long s 10 = Some v ->
  (all_chars is_blank t = true -> parse_long (s ++ t) 10 = Some v)
  /\ (forall c t',
         t = String c t' -> is_blank c = false -> digit_in 10 c = None ->
         parse_long (s ++ t) 10 = None).
Proof.
  intros H. apply parse_long_iff in H as (Hs & Hc & He & Hb & Hv).
  split.
  - intros Ht. apply parse_long_iff.
    rewrite (strtol_app s t Hc (blank_stops t Ht)). simpl.
    repeat split; auto.
    + destruct s; [congruence | discriminate].
    + rewrite all_chars_app, Hb, Ht. reflexivity.
  - intros c t' -> Hbl Hd.
    destruct (parse_long (s ++ String c t') 10) as [v' | ] eqn:P;
      [ | reflexivity].
    apply parse_long_iff in P as (_ & _ & _ & P & _).
    rewrite (strtol_app s (String c t') Hc) in P
      by (simpl; rewrite Hd; reflexivity).
    simpl in P. rewrite all_chars_app in P. simpl in P.
    rewrite Hbl in P. simpl in P. rewrite andb_false_r in P. discriminate.
Qed.

Lemma parse_long_followed_witness :
  parse_long ("-17" ++ String TAB " ") 10 = Some (-17)%Z
  /\ parse_long ("-17" ++ "kOhm") 10 = None.
Proof.
  split.
  - apply (proj1 (parse_long_followed "-17" (String TAB " ") (-17)%Z eq_refl)).
    reflexivity.
  - apply (proj2 (parse_long_followed "-17" "kOhm" (-17)%Z eq_refl)
                 "k"%char "Ohm"%string); reflexivity.
Defined.

(** ** The main menu's own parser *)

Lemma fgets_line_n (size : nat) (l rest : string)
      (lf : option (list call)) (lw : bool) :
  all_chars not_lf l = true -> (String.length l + 2 <= size)%nat ->
  fgets size (State (l ++ String LF rest) lf lw)
  = (Val (Some (l ++ String LF "")%string), State rest lf lw, []).
Proof.
  intros Hc Hn. unfold fgets. simpl stdin.
  rewrite (fgets_take_line l rest (size - 1) Hc ltac:(lia)).
  destruct l; reflexivity.
Qed.

Lemma cstr_id (s : string) : all_chars not_nul s = true -> cstr s = s.
Proof. apply take_until_id. Qed.

(** What [strtol] leaves is the end of what it was given. *)
Lemma all_chars_spaces (p : ascii -> bool) (s : string) (n : nat) :
  all_chars p s = true -> all_chars p (snd (Strtol.spaces s n)) = true.
Proof.
  revert n. induction s as [ | c s IH]; intros n H; [reflexivity | ].
  simpl in *. apply andb_prop in H as [Hc Hs].
  destruct (isspace c); [auto | simpl; rewrite Hc; exact Hs].
Qed.

Lemma all_chars_sign (p : ascii -> bool) (s : string) :
  all_chars p s = true -> all_chars p (snd (Strtol.sign s)) = true.
Proof.
  destruct s as [ | c s]; [reflexivity | ]. intros H.
  assert (Hs : all_chars p s = true)
    by (simpl in H; apply andb_prop in H; tauto).
  destruct c as [[ | ] [ | ] [ | ] [ | ] [ | ] [ | ] [ | ] [ | ]];
    first [exact H | exact Hs].
Qed.

Lemma all_chars_digits (p : ascii -> bool) (b : Z) (s : string) :
  all_chars p s = true ->
  forall acc n, all_chars p (snd (Strtol.digits b s acc n)) = true.
Proof.
  induction s as [ | c s IH]; intros H acc n; [reflexivity | ].
  simpl in *. apply andb_prop in H as [Hc Hs].
  destruct (digit_in b c); [auto | simpl; rewrite Hc; exact Hs].
Qed.

Lemma all_chars_rest (p : ascii -> bool) (s : string) :
  all_chars p s = true ->
  all_chars p (Strtol.rest (Strtol.strtol s 10)) = true.
Proof.
  intros H. rewrite strtol10_unfold.
  pose proof (all_chars_spaces p s 0 H) as H1.
  destruct (Strtol.spaces s 0) as [nsp s1]. simpl in H1.
  pose proof (all_chars_sign p s1 H1) as H2.
  destruct (Strtol.sign s1) as [[neg nsg] s2]. simpl in H2.
  pose proof (all_chars_digits p 10 s2 H2 0%Z 0%nat) as H3.
  destruct (Strtol.digits 10 s2 0 0) as [[m nd] s4]. simpl in H3.
  destruct nd; [exact H | ].
  destruct (Strtol.clamp neg m). exact H3.
Qed.

Lemma skip_blank_lf (a b : string) :
  skip_while is_blank (a ++ String LF b)
  = (skip_while is_blank a ++ String LF b)%string.
Proof.
  induction a as [ | c a IH]; [reflexivity | ].
  simpl. destruct (is_blank c); [exact IH | reflexivity].
Qed.

(** [get_choice]'s reading of a line, against [parse_long]. *)
Lemma choice_of_line_lf (l : string) :
  all_chars not_lf l = true ->
  choice_of_line (l ++ String LF "")
  = match parse_long l 10 with
    | Some v => int_of_long v
    | None => (-1)%Z
    end.
Proof.
  intros Hl. unfold choice_of_line, parse_long.
  destruct (Nat.eqb (Strtol.consumed (Strtol.strtol l 10)) 0) eqn:C.
  - apply Nat.eqb_eq in C.
    rewrite (proj2 (Nat.eqb_eq _ _)
                   (strtol_app_none l (String LF "") C eq_refl)).
    destruct (Strtol.erange (Strtol.strtol (l ++ String LF "") 10));
      destruct (is_empty l); destruct (Strtol.erange (Strtol.strtol l 10));
      reflexivity.
  - apply Nat.eqb_neq in C.
    assert (Hne : is_empty l = false).
    { destruct l; [ | reflexivity]. rewrite strtol_empty in C.
      exfalso. apply C. reflexivity. }
    rewrite (strtol_app l (String LF "") C eq_refl), Hne. simpl.
    destruct (Strtol.erange (Strtol.strtol l 10)); [reflexivity | ].
    rewrite (proj2 (Nat.eqb_neq _ _) C), skip_blank_lf.
    pose proof (all_chars_rest not_lf l Hl) as Hr.
    destruct (Strtol.rest (Strtol.strtol l 10)) as [ | c r] eqn:R;
      [reflexivity | ].
    assert (Hs : all_chars not_lf (skip_while is_blank (String c r)) = true).
    { clear - Hr. induction (String c r) as [ | x y IH]; [reflexivity | ].
      simpl in *. apply andb_prop in Hr as [Hx Hy].
      destruct (is_blank x); [auto | simpl; rewrite Hx; exact Hy]. }
    destruct (skip_while is_blank (String c r)) as [ | c' r'];
      [reflexivity | ].
    simpl in Hs. apply andb_prop in Hs as [Hc' _].
    unfold not_lf in Hc'. apply negb_true_iff in Hc'.
    simpl. rewrite Hc'. reflexivity.
Qed.

Lemma get_choice_line (l rest : string)
        (lf : option (list call)) (lw : bool) :
  short64 l = true -> all_chars not_nul l = true ->
  get_choice (State (l ++ String LF rest) lf lw)
  = (Val (match parse_long l 10 with
          | Some v => int_of_long v
          | None => (-1)%Z
          end),
     State rest lf lw, []).
Proof.
  intros Hs Hn. apply andb_prop in Hs as [Hl Hlen]. apply Nat.leb_le in Hlen.
  unfold get_choice.
  rewrite (bind_val _ _ _ _ _ _ (fgets_line_n 64 l rest lf lw Hl ltac:(lia))).
  rewrite cstr_id
    by (rewrite all_chars_app, Hn; reflexivity).
  rewrite (choice_of_line_lf l Hl). reflexivity.
Qed.

(** X6. The main menu reads a line as [parse_long] does: on a line that
    fits its 64-byte buffer, [get_choice] returns the value [parse_long]
    gives for the text before the newline, converted to [int], and -1
    when [parse_long] rejects that text; it consumes the line and its
    newline, prints nothing and leaves the log file alone. *)
Theorem get_choice_agrees (l rest : string)
        (lf : option (list call)) (lw : bool) :
  short64 l = true -> all_chars not_nul l = true ->
  get_choice (State (l ++ String LF rest) lf lw)
  = (Val (match parse_long l 10 with
          | Some v => int_of_long v
          | None => (-1)%Z
          end),
     State rest lf lw, []).
Proof. apply get_choice_line. Qed.

Lemma get_choice_agrees_witness :
  get_choice (State (" 3 " ++ String LF "b") None true)
  = (Val (match parse_long " 3 " 10 with
          | Some v => int_of_long v
          | None => (-1)%Z
          end),
     State "b" None true, []).
Proof.
  apply (get_choice_agrees " 3 " "b" None true); reflexivity.
Defined.

Lemma entered_cr (l t : string) :
  all_chars not_eol l = true -> all_chars not_nul l = true ->
  entered (l ++ String CR t) = l.
Proof.
  unfold entered, trim_newline, cstr, not_eol, not_nul.
  induction l as [ | c l IH]; intros He Hn; [reflexivity | ].
  simpl in *. apply andb_prop in He as [He1 He2].
  apply andb_prop in Hn as [Hn1 Hn2].
  apply negb_true_iff in He1. apply negb_true_iff in Hn1.
  rewrite Hn1. simpl. rewrite He1, (IH He2 Hn2). reflexivity.
Qed.

Lemma not_eol_not_lf (l : string) :
  all_chars not_eol l = true -> all_chars not_lf l = true.
Proof.
  induction l as [ | c l IH]; [reflexivity | ].
  simpl. intros H. apply andb_prop in H as [Hc Hl]. rewrite (IH Hl).
  rewrite andb_true_r. clear - Hc.
  destruct c as [[ | ] [ | ] [ | ] [ | ] [ | ] [ | ] [ | ] [ | ]];
    first [reflexivity | discriminate Hc].
Qed.

(** X7. A line of at most 61 characters, none of them NUL, that ends
    with a carriage return before its newline, as a terminal in Windows
    mode sends it (61 characters, so that the line, the carriage return
    and the newline fit the 64-byte buffer of [get_choice]): [read_int]
    cuts the carriage return off and accepts the integer before it, and
    [get_choice], which does not, answers -1 ("Invalid choice.") to the
    same line. *)
Theorem carriage_return_lines (p : option string) (l rest : string) (v : Z)
        (lf : option (list call)) (lw : bool) :
  all_chars not_eol l = true -> all_chars not_nul l = true ->
  (String.length l <= 61)%nat ->
  parse_long l 10 = Some v ->
  read_int p (State (l ++ String CR (String LF rest)) lf lw)
  = (Val (Some (int_of_long v)), State rest lf lw, prompt_calls p)
  /\ get_choice (State (l ++ String CR (String LF rest)) lf lw)
     = (Val (-1)%Z, State rest lf lw, []).
Proof.
  intros He Hn Hlen Hp.
  pose proof (not_eol_not_lf l He) as Hl.
  assert (E : (l ++ String CR (String LF rest)
               = (l ++ String CR "") ++ String LF rest)%string)
    by (rewrite string_app_assoc; reflexivity).
  assert (Hlf : all_chars not_lf (l ++ String CR "") = true)
    by (rewrite all_chars_app, Hl; reflexivity).
  assert (Hlen' : String.length (l ++ String CR "") = S (String.length l))
    by (rewrite string_length_app; simpl; lia).
  rewrite E. split.
  - apply read_int_line.
    + unfold short. rewrite Hlf, Hlen'. apply Nat.leb_le. lia.
    + rewrite entered_cr by assumption. exact Hp.
  - rewrite get_choice_line.
    + assert (P : parse_long (l ++ String CR "") 10 = None).
      { destruct (parse_long (l ++ String CR "") 10) as [v' | ] eqn:P;
          [ | reflexivity].
        apply parse_long_iff in Hp as (_ & Hc & _ & Hb & _).
        apply parse_long_iff in P as (_ & _ & _ & P & _).
        rewrite (strtol_app l (String CR "") Hc eq_refl) in P.
        simpl in P. rewrite all_chars_app, Hb in P. discriminate. }
      rewrite P. reflexivity.
    + unfold short64. rewrite Hlf, Hlen'. apply Nat.leb_le. lia.
    + rewrite all_chars_app, Hn. reflexivity.
Qed.

Lemma carriage_return_lines_witness :
  read_int None (State ("7" ++ String CR (String LF "")) None true)
  = (Val (Some (int_of_long 7)), State "" None true, prompt_calls None)
  /\ get_choice (State ("7" ++ String CR (String LF "")) None true)
     = (Val (-1)%Z, State "" None true, []).
Proof.
  apply (carriage_return_lines None "7" "" 7 None true);
    first [reflexivity | simpl; lia].
Defined.

(** ** The back prompt *)





(** ** The log file *)

Lemma records_append (c : call) (s : state) :
  log_writable s = true -> records (append_log c s) = records s ++ [logged c].
Proof.
  intros H. unfold append_log, log_line, records. rewrite H. simpl.
  destruct (log_file s); reflexivity.
Qed.

Lemma append_log_closed (c : call) (s : state) :
  log_writable s = false -> append_log c s = s.
Proof. intros H. unfold append_log, log_line. rewrite H. reflexivity. Qed.

(** X9. What is logged is what the log viewer shows: after [log_printf]
    on a log file that can be opened, [view_log] prints its heading, the
    records the file held, in order, and the new record last, which is
    the first 255 bytes of what the call renders and a newline; when the
    file cannot be opened [log_printf] changes nothing; [view_log] changes
    nothing; and with no log file it prints "No saved calculations yet."
    instead. *)
Theorem view_log_shows (s : state) :
  (forall f a,
      log_writable s = true ->
      (log_printf f a ;;; view_log) s
      = (Val tt, append_log (Call f a) s,
         Call "\n--- Saved Log ---\n" []
           :: records s ++ [logged (Call f a)]))
  /\ (forall f a,
         log_writable s = false ->
         (log_printf f a ;;; view_log) s = view_log s)
  /\ left (view_log s) = s
  /\ (log_file s = None ->
      view_log s
      = (Val tt, s,
         [Call "\n--- Saved Log ---\nNo saved calculations yet.\n" []])).
Proof.
  repeat split.
  - intros f a H.
    unfold bind, log_printf, view_log, append_log, log_line, records.
    rewrite H. simpl. destruct (log_file s); reflexivity.
  - intros f a H. unfold bind, log_printf.
    rewrite (append_log_closed _ _ H).
    destruct (view_log s) as [[r s'] o]. reflexivity.
  - unfold view_log. destruct (log_file s); reflexivity.
  - intros H. unfold view_log. rewrite H. reflexivity.
Qed.

Lemma view_log_shows_witness :
  (log_printf "Power: V=%.6f V" [ADbl 2] ;;; view_log)
    (State "" (Some [logged (Call "first" [])]) true)
  = (Val tt,
     append_log (Call "Power: V=%.6f V" [ADbl 2])
                (State "" (Some [logged (Call "first" [])]) true),
     Call "\n--- Saved Log ---\n" []
       :: records (State "" (Some [logged (Call "first" [])]) true)
       ++ [logged (Call "Power: V=%.6f V" [ADbl 2])]).
Proof.
  apply (proj1 (view_log_shows
                  (State "" (Some [logged (Call "first" [])]) true))).
  reflexivity.
Defined.

(** *** Framing *)

Lemma frame_weaken {A} (n n' : nat) (m : M A) :
  (n <= n')%nat -> frame n m -> frame n' m.
Proof.
  intros Hn H s. destruct (H s) as (H1 & H2 & (new & H3 & H4) & H5).
  repeat split; auto. exists new. split; [exact H3 | lia].
Qed.

Lemma frame_same {A} (r : outcome A) (o : list call) :
  frame 0 (fun s => (r, s, o)).
Proof.
  intros s. unfold left. simpl. repeat split; auto.
  - exists EmptyString. reflexivity.
  - exists []. rewrite app_nil_r. auto.
Qed.

Lemma frame_ret {A} (a : A) : frame 0 (ret a).
Proof. apply frame_same. Qed.

Lemma frame_early_return {A} : frame 0 (@early_return A).
Proof. apply frame_same. Qed.

Lemma frame_printf (f : string) (a : list arg) : frame 0 (printf f a).
Proof. apply frame_same. Qed.

Lemma frame_log_printf (f : string) (a : list arg) : frame 1 (log_printf f a).
Proof.
  intros s. unfold log_printf, left. simpl.
  rewrite stdin_append, log_writable_append. repeat split.
  - exists EmptyString. reflexivity.
  - destruct (log_writable s) eqn:W.
    + exists [logged (Call f a)]. rewrite (records_append _ _ W). auto.
    + exists []. rewrite (append_log_closed _ _ W), app_nil_r. auto.
  - intros W. rewrite (append_log_closed _ _ W). reflexivity.
Qed.

Lemma frame_bind {A B} (a b : nat) (m : M A) (k : A -> M B) :
  frame a m -> (forall x, frame b (k x)) -> frame (a + b) (bind m k).
Proof.
  intros Hm Hk s. destruct (Hm s) as ((u1 & U1) & W1 & (n1 & R1 & L1) & C1).
  unfold bind. destruct (m s) as [[[x | | c | ] s1] o1]; unfold left in *;
    simpl in *;
    try (repeat split; eauto; exists n1; split; [exact R1 | lia]).
  destruct (Hk x s1) as ((u2 & U2) & W2 & (n2 & R2 & L2) & C2).
  destruct (k x s1) as [[r s2] o2]. unfold left in *. simpl in *.
  repeat split.
  - exists (u1 ++ u2)%string. rewrite string_app_assoc. congruence.
  - congruence.
  - exists (n1 ++ n2). rewrite R2, R1, app_assoc, length_app.
    split; [reflexivity | lia].
  - intros W. rewrite C2 by congruence. auto.
Qed.

Lemma frame_bind0 {A B} (n : nat) (m : M A) (k : A -> M B) :
  frame 0 m -> (forall x, frame n (k x)) -> frame n (bind m k).
Proof. intros Hm Hk. apply (frame_bind 0 n m k Hm Hk). Qed.

Lemma frame_fgets (size : nat) : frame 0 (fgets size).
Proof.
  intros s. unfold fgets.
  destruct (stdin s) as [ | c t] eqn:E.
  - unfold left. simpl. rewrite E. repeat split; auto.
    + exists EmptyString. reflexivity.
    + exists []. rewrite app_nil_r. auto.
  - pose proof (fgets_take_spec (size - 1) (String c t)) as [Happ _].
    destruct (fgets_take (size - 1) (String c t)) as [buf rest].
    unfold left, records. simpl in *. repeat split; auto.
    + exists buf. congruence.
    + exists []. rewrite app_nil_r. auto.
Qed.

Lemma frame_read_line (p : option string) (size : nat) :
  frame 0 (read_line p size).
Proof.
  unfold read_line. apply frame_bind0; [apply frame_same | intros _].
  apply frame_bind0; [apply frame_fgets | intros [buf | ]; apply frame_ret].
Qed.

Lemma frame_read_int_loop (p : option string) (fuel : nat) :
  frame 0 (read_int_loop fuel p).
Proof.
  induction fuel as [ | fuel IH]; [apply frame_same | ].
  simpl. apply frame_bind0; [apply frame_read_line | intros [buf | ]].
  - destruct (parse_long buf 10); [apply frame_ret | ].
    apply frame_bind0; [apply frame_printf | intros _; exact IH].
  - apply frame_ret.
Qed.

Lemma frame_read_double_loop (p : option string) (fuel : nat) :
  frame 0 (read_double_loop fuel p).
Proof.
  induction fuel as [ | fuel IH]; [apply frame_same | ].
  simpl. apply frame_bind0; [apply frame_read_line | intros [buf | ]].
  - destruct (parse_double buf); [apply frame_ret | ].
    apply frame_bind0; [apply frame_printf | intros _; exact IH].
  - apply frame_ret.
Qed.

Lemma frame_require {A} (m : M (option A)) : frame 0 m -> frame 0 (require m).
Proof.
  intros H. apply frame_bind0; [exact H | ].
  intros [a | ]; [apply frame_ret | apply frame_early_return].
Qed.

Lemma frame_ask_int (p : string) : frame 0 (ask_int p).
Proof.
  apply frame_require. intros s. apply (frame_read_int_loop (Some p)).
Qed.

Lemma frame_ask (p : string) : frame 0 (ask p).
Proof.
  apply frame_require. intros s. apply (frame_read_double_loop (Some p)).
Qed.

Lemma frame_reject_if (c : bool) (msg : string) : frame 0 (reject_if c msg).
Proof.
  unfold reject_if. destruct c; [ | apply frame_ret].
  apply frame_bind0; [apply frame_printf | intros _; apply frame_early_return].
Qed.

Lemma frame_divide_or (msg : string) (num den : double) :
  frame 0 (divide_or msg num den).
Proof.
  unfold divide_or. destruct (safe_divide num den) as [[ | ] q];
    [apply frame_ret | ].
  apply frame_bind0; [apply frame_printf | intros _; apply frame_early_return].
Qed.

Lemma frame_sum_loop (label : string) (last : Z) (fuel : nat) :
  forall i sum, frame 0 (sum_loop fuel label i last sum).
Proof.
  induction fuel as [ | fuel IH]; intros i sum; simpl;
    (destruct (last <? i)%Z; [apply frame_ret | ]); [apply frame_same | ].
  apply frame_bind0; [apply frame_printf | intros _].
  apply frame_bind0; [ | intros r; apply IH].
  apply frame_require. intros s. apply (frame_read_double_loop None).
Qed.

Lemma frame_sum_inputs (label : string) (last : Z) :
  frame 0 (sum_inputs label last).
Proof. intros s. apply (frame_sum_loop label last). Qed.

Lemma frame_call_void (n : nat) (m : M unit) :
  frame n m -> frame n (call_void m).
Proof.
  intros H s. specialize (H s). unfold call_void.
  destruct (m s) as [[[x | | c | ] s1] o1]; exact H.
Qed.

Lemma frame_if {A} (n : nat) (b : bool) (m1 m2 : M A) :
  frame n m1 -> frame n m2 -> frame n (if b then m1 else m2).
Proof. destruct b; auto. Qed.

Lemma frame_leaf {A} (m : M A) : frame 0 m -> frame 1 m.
Proof. apply frame_weaken. lia. Qed.

Lemma frame_bind_log {B} (f : string) (a : list arg) (k : unit -> M B) :
  (forall x, frame 0 (k x)) -> frame 1 (bind (log_printf f a) k).
Proof. intros Hk. apply (frame_bind 1 0 _ k (frame_log_printf f a) Hk). Qed.

Ltac frame_leaf0 :=
  first [ apply frame_printf | apply frame_ask | apply frame_ask_int
        | apply frame_reject_if | apply frame_divide_or
        | apply frame_sum_inputs | apply frame_early_return
        | apply frame_ret ].

Ltac frame_step :=
  cbv zeta;
  lazymatch goal with
  | |- frame _ (if _ then _ else _) => apply frame_if
  | |- frame 1 (bind (log_printf _ _) _) =>
      apply frame_bind_log; intros ?; frame_leaf0
  | |- frame _ (bind _ _) => apply frame_bind0; [frame_leaf0 | intros ? ]
  | |- frame 1 (log_printf _ _) => apply frame_log_printf
  | |- frame 1 _ => apply frame_leaf; frame_leaf0
  end.

Lemma frame_menu_item_1 : frame 1 menu_item_1.
Proof.
  unfold menu_item_1, vdiv_vout, vdiv_vin, vdiv_r1, vdiv_r2.
  repeat frame_step.
Qed.

Lemma frame_menu_item_2 : frame 1 menu_item_2.
Proof.
  unfold menu_item_2, series_total, series_missing,
    parallel_req, parallel_r1, parallel_r2.
  repeat frame_step.
Qed.

Lemma frame_menu_item_3 : frame 1 menu_item_3.
Proof.
  unfold menu_item_3, xl_of, l_of_xl, f_of_xl, xc_of, c_of_xc, f_of_xc,
    f0_of, l_of_f0, c_of_f0.
  repeat frame_step.
Qed.

Lemma frame_menu_item_4 (c_exp c_log : double -> double) :
  frame 1 (menu_item_4 c_exp c_log).
Proof.
  unfold menu_item_4, rc_forward, rc_solve_t, rc_from_tau, rc_solve_c,
    rc_solve_r.
  repeat frame_step.
Qed.

Lemma frame_menu_item_5 : frame 1 menu_item_5.
Proof.
  unfold menu_item_5, power_p, power_v, power_i. repeat frame_step.
Qed.

(** X10. A calculation of any of the five modules only adds to the log
    file, one record at most, and none when the file cannot be opened; it
    takes its input from the front of what is left to read. *)
Theorem modules_append_one_record (c_exp c_log : double -> double) :
  frame 1 menu_item_1 /\ frame 1 menu_item_2 /\ frame 1 menu_item_3
  /\ frame 1 (menu_item_4 c_exp c_log) /\ frame 1 menu_item_5.
Proof.
  exact (conj frame_menu_item_1
           (conj frame_menu_item_2
              (conj frame_menu_item_3
                 (conj (frame_menu_item_4 c_exp c_log) frame_menu_item_5)))).
Qed.

Lemma frame_view_log : frame 0 view_log.
Proof.
  intros s.
  assert (E : exists o, view_log s = (Val tt, s, o))
    by (unfold view_log; destruct (log_file s); eexists; reflexivity).
  destruct E as [o E]. rewrite E. apply (frame_same (Val tt) o s).
Qed.

Lemma frame_get_choice : frame 0 get_choice.
Proof.
  unfold get_choice. apply frame_bind0; [apply frame_fgets | ].
  intros [buf | ]; apply frame_ret.
Qed.

Lemma frame_wait_back_loop (fuel : nat) : frame 0 (wait_back_loop fuel).
Proof.
  induction fuel as [ | fuel IH]; [apply frame_same | ].
  simpl. apply frame_bind0; [apply frame_printf | intros _].
  apply frame_bind0; [apply frame_fgets | intros [buf | ]].
  - destruct (is_back _); [apply frame_ret | exact IH].
  - apply frame_bind0; [apply frame_printf | intros _; apply frame_same].
Qed.

Lemma frame_wait_back : frame 0 wait_back.
Proof. intros s. apply (frame_wait_back_loop _ s). Qed.

Lemma frame_module (m : M unit) :
  frame 1 m -> frame 1 (call_void m ;;; wait_back).
Proof.
  intros H.
  apply (frame_bind 1 0 _ _ (frame_call_void 1 m H)
           (fun _ => frame_wait_back)).
Qed.

Lemma frame_main_iter (c_exp c_log : double -> double) :
  frame 1 (main_iter c_exp c_log).
Proof.
  unfold main_iter.
  apply frame_bind0; [apply frame_same | intros _].
  apply frame_bind0; [apply frame_get_choice | intros c].
  repeat apply frame_if;
    try (apply frame_module;
         first [ apply frame_menu_item_1 | apply frame_menu_item_2
               | apply frame_menu_item_3 | apply frame_menu_item_4
               | apply frame_menu_item_5
               | apply frame_leaf, frame_view_log ]).
  - apply frame_leaf. apply frame_bind0;
      [apply frame_printf | intros _; apply frame_same].
  - apply frame_leaf, frame_printf.
Qed.

(** X11. The whole program only ever adds to the log file: after [n]
    turns of the menu loop, however they went and however the program
    ended, the log file holds what it held at the start followed by [n]
    new records at most, and it is untouched when it cannot be opened; the
    input was read from the front, in order. *)
Theorem main_appends (c_exp c_log : double -> double) (n : nat) :
  frame n (main c_exp c_log n).
Proof.
  induction n as [ | n IH]; [apply frame_same | ].
  simpl. apply (frame_bind 1 n _ _ (frame_main_iter c_exp c_log)).
  intros _. exact IH.
Qed.

(** *** What is displayed is logged *)

Lemma silent_clean {A} (m : M A) : clean m -> silent m.
Proof.
  intros H s. destruct (H s) as (_ & Q & F & W & _).
  repeat split; auto using quiet_no_numbers.
Qed.

Lemma silent_printf (f : string) (a : list arg) :
  numbers_of (Call f a) = [] -> silent (printf f a).
Proof.
  intros H s. unfold_run. unfold numbers. simpl. rewrite H. auto.
Qed.

Lemma silent_reject_if (c : bool) (msg : string) : silent (reject_if c msg).
Proof. intros s. unfold reject_if. destruct c; unfold_run; auto. Qed.

Lemma silent_divide_or (msg : string) (num den : double) :
  silent (divide_or msg num den).
Proof.
  intros s. unfold divide_or.
  destruct (safe_divide num den) as [[ | ] q]; unfold_run; auto.
Qed.

Lemma new_records_same {A} (s s1 : state) (r : outcome A * state * list call) :
  log_file s1 = log_file s -> new_records s1 r = new_records s r.
Proof. intros H. unfold new_records, records. rewrite H. reflexivity. Qed.

Lemma recorded_silent {A} (m : M A) : silent m -> recorded m.
Proof.
  intros H s _ d Hd. destruct (H s) as (N & _). unfold displayed in Hd.
  rewrite N in Hd. destruct Hd.
Qed.

Lemma recorded_bind {A B} (m : M A) (k : A -> M B) :
  silent m -> (forall a, recorded (k a)) -> recorded (bind m k).
Proof.
  intros Hm Hk s W d. destruct (Hm s) as (N & F & W1). unfold bind.
  destruct (m s) as [[[x | | c | ] s1] o1]; unfold_run;
    try (unfold displayed; simpl; rewrite N; intros []).
  assert (W2 : log_writable s1 = true) by congruence.
  specialize (Hk x s1 W2 d). rewrite (new_records_same s s1 _ F) in Hk.
  destruct (k x s1) as [[r s2] o2]. unfold displayed in *. simpl in *.
  rewrite numbers_app, N. exact Hk.
Qed.

Lemma recorded_if {A} (c : bool) (a b : M A) :
  recorded a -> recorded b -> recorded (if c then a else b).
Proof. destruct c; auto. Qed.

Lemma recorded_logged {A} (m : M A) (c : call) :
  (forall s, exists r o,
      m s = (r, append_log c s, o) /\ incl (numbers o) (numbers_of c)) ->
  recorded m.
Proof.
  intros H s W d Hd. destruct (H s) as (r & o & E & I). exists c.
  unfold displayed, new_records in *. rewrite E in *. unfold_run.
  rewrite (records_append _ _ W), skipn_app, Nat.sub_diag, skipn_all.
  split; [left; reflexivity | auto].
Qed.

Ltac in_list := repeat first [left; reflexivity | right].

Ltac recorded_leaf :=
  eapply recorded_logged; intros ?; do 2 eexists;
  split; [reflexivity | ];
  let d := fresh "d" in
  let Hd := fresh "Hd" in
  intros d Hd; simpl in Hd |- *;
  repeat (destruct Hd as [Hd | Hd]; [rewrite <- Hd; in_list | ]);
  destruct Hd.

Ltac recorded_silent_bind :=
  apply recorded_bind;
  [ first [ apply silent_reject_if | apply silent_divide_or
          | apply silent_printf; reflexivity
          | apply silent_clean;
            first [ apply clean_ask | apply clean_ask_int
                  | apply clean_sum_inputs; reflexivity ] ]
  | intros ? ].

Ltac recorded_step :=
  cbv zeta;
  lazymatch goal with
  | |- recorded (if _ then _ else _) => apply recorded_if
  | |- recorded (bind (printf _ []) (fun _ => bind (log_printf _ _) _)) =>
      recorded_leaf
  | |- recorded (bind (printf _ []) (fun _ => log_printf _ _)) =>
      recorded_leaf
  | |- recorded (bind (printf _ (_ :: _)) _) => recorded_leaf
  | |- recorded (bind (log_printf _ _) _) => recorded_leaf
  | |- recorded (log_printf _ _) => recorded_leaf
  | |- recorded (bind _ _) => recorded_silent_bind
  | |- recorded (printf _ _) =>
      apply recorded_silent, silent_printf; reflexivity
  end.

Lemma recorded_menu_item_1 : recorded menu_item_1.
Proof.
  unfold menu_item_1, vdiv_vout, vdiv_vin, vdiv_r1, vdiv_r2.
  repeat recorded_step.
Qed.

Lemma recorded_menu_item_2 : recorded menu_item_2.
Proof.
  unfold menu_item_2, series_total, series_missing,
    parallel_req, parallel_r1, parallel_r2.
  repeat recorded_step.
Qed.

Lemma recorded_menu_item_3 : recorded menu_item_3.
Proof.
  unfold menu_item_3, xl_of, l_of_xl, f_of_xl, xc_of, c_of_xc, f_of_xc,
    f0_of, l_of_f0, c_of_f0.
  repeat recorded_step.
Qed.

Lemma recorded_menu_item_4 (c_exp c_log : double -> double) :
  recorded (menu_item_4 c_exp c_log).
Proof.
  unfold menu_item_4, rc_forward, rc_solve_t, rc_from_tau, rc_solve_c,
    rc_solve_r.
  repeat recorded_step.
Qed.

Lemma recorded_menu_item_5 : recorded menu_item_5.
Proof.
  unfold menu_item_5, power_p, power_v, power_i. repeat recorded_step.
Qed.

(** ** The series loops *)

Lemma int_of_long_id (v : Z) :
  (INT_MIN <= v <= INT_MAX)%Z -> int_of_long v = v.
Proof.
  unfold int_of_long, INT_MIN, INT_MAX. intros H.
  rewrite Z.mod_small; lia.
Qed.

Lemma labels_cons (label : string) (i : Z) (n : nat) :
  labels label i (S n) = Call label [AInt i] :: labels label (i + 1) n.
Proof.
  unfold labels. rewrite <- cons_seq, <- seq_shift, map_cons, map_map.
  change (Z.of_nat 0) with 0%Z. rewrite Z.add_0_r. f_equal.
  apply map_ext. intros k. do 3 f_equal. lia.
Qed.

Lemma read_double_end (p : option string) (lf : option (list call))
      (lw : bool) :
  read_double p (State "" lf lw) = (Val None, State "" lf lw, prompt_calls p).
Proof.
  unfold read_double. simpl. unfold bind. rewrite read_line_eof. simpl.
  rewrite app_nil_r. reflexivity.
Qed.

Lemma sum_loop_lines (label : string) (last : Z) (rest : string)
      (lf : option (list call)) (lw : bool) (ls : list string) :
  forall (vs : list double) (fuel : nat) (i : Z) (sum : double),
    values ls vs ->
    (List.length ls <= fuel)%nat ->
    (1 <= i)%Z -> (i + Z.of_nat (List.length ls) - 1 = last)%Z ->
    (last < INT_MAX)%Z ->
    sum_loop fuel label i last sum (State (lines ls ++ rest) lf lw)
    = (Val (added sum vs), State rest lf lw,
       labels label i (List.length ls)).
Proof.
  induction ls as [ | l ls IH]; intros vs fuel i sum Hv Hf Hi Hl Hm;
    inversion Hv as [ | ? v ? vs' [Hs Hp] Hv']; subst vs.
  - simpl in Hl.
    destruct fuel; simpl;
      (replace (last <? i)%Z with true by (symmetry; apply Z.ltb_lt; lia));
      reflexivity.
  - simpl List.length in *.
    destruct fuel as [ | fuel]; [lia | ].
    rewrite lines_cons_app. simpl sum_loop.
    replace (last <? i)%Z with false by (symmetry; apply Z.ltb_ge; lia).
    rewrite printf_bind.
    rewrite (bind_val (require (read_double None)) _ _
               (State (lines ls ++ rest) lf lw) v []).
    + rewrite int_of_long_id by (unfold INT_MIN, INT_MAX in *; lia).
      rewrite (IH vs' fuel (i + 1)%Z (sum + v) Hv') by lia.
      rewrite labels_cons. reflexivity.
    + unfold require, bind.
      rewrite (read_double_line None l _ v lf lw Hs Hp). reflexivity.
Qed.

Lemma sum_loop_short (label : string) (last : Z)
      (lf : option (list call)) (lw : bool) (ls : list string) :
  forall (vs : list double) (fuel : nat) (i : Z) (sum : double),
    values ls vs ->
    (List.length ls < fuel)%nat ->
    (1 <= i)%Z -> (i + Z.of_nat (List.length ls) <= last)%Z ->
    (last < INT_MAX)%Z ->
    sum_loop fuel label i last sum (State (lines ls) lf lw)
    = (Return, State "" lf lw, labels label i (S (List.length ls))).
Proof.
  induction ls as [ | l ls IH]; intros vs fuel i sum Hv Hf Hi Hl Hm;
    inversion Hv as [ | ? v ? vs' [Hs Hp] Hv']; subst vs;
    simpl List.length in *;
    (destruct fuel as [ | fuel]; [lia | ]);
    simpl sum_loop;
    (replace (last <? i)%Z with false by (symmetry; apply Z.ltb_ge; lia));
    rewrite printf_bind.
  - simpl lines.
    rewrite (require_fails (read_double None) _ _ (State "" lf lw) []
               (read_double_end None lf lw)).
    rewrite labels_cons. reflexivity.
  - replace (lines (l :: ls)) with (l ++ String LF (lines ls))%string
      by reflexivity.
    rewrite (bind_val (require (read_double None)) _ _
               (State (lines ls) lf lw) v []).
    + rewrite int_of_long_id by (unfold INT_MIN, INT_MAX in *; lia).
      rewrite (IH vs' fuel (i + 1)%Z (sum + v) Hv') by lia.
      rewrite (labels_cons label i (S (List.length ls))). reflexivity.
    + unfold require, bind.
      rewrite (read_double_line None l _ v lf lw Hs Hp). reflexivity.
Qed.

Lemma sum_inputs_lines (label : string) (rest : string)
      (lf : option (list call)) (lw : bool) (ls : list string)
      (vs : list double) :
  values ls vs ->
  (Z.of_nat (List.length ls) < INT_MAX)%Z ->
  sum_inputs label (Z.of_nat (List.length ls))
             (State (lines ls ++ rest) lf lw)
  = (Val (added 0 vs), State rest lf lw, labels label 1 (List.length ls)).
Proof.
  intros Hv Hm. unfold sum_inputs.
  apply sum_loop_lines; auto; try lia.
  simpl stdin. rewrite string_length_app.
  pose proof (length_lines ls). lia.
Qed.

Lemma sum_inputs_short (label : string) (n : Z)
      (lf : option (list call)) (lw : bool) (ls : list string)
      (vs : list double) :
  values ls vs ->
  (Z.of_nat (List.length ls) < n < INT_MAX)%Z ->
  sum_inputs label n (State (lines ls) lf lw)
  = (Return, State "" lf lw, labels label 1 (S (List.length ls))).
Proof.
  intros Hv Hm. unfold sum_inputs.
  apply (sum_loop_short label n lf lw ls vs); auto; try lia.
  simpl stdin. pose proof (length_lines ls). lia.
Qed.

(** X13. The series total, on lines of at most 126 characters each (so
    that [fgets] takes each at once) and a count line that reads as an
    [n] with [INT_MIN <= n < INT_MAX] (so that neither the conversion to
    [int] nor the loop counter wraps): on the count line and [n] lines
    that [read_double] accepts, the module reads [n] values, each behind
    its label "R1", "R2", ..., displays their sum, added left to right
    from 0, consumes exactly these lines and gives [n] and the sum to
    [log_printf]; for a count of 0 or less it prints "Count must be
    positive." and reads no value; and when the input ends before [n]
    values were read it returns with nothing displayed and nothing
    logged. *)
Theorem series_total_adds (c : string) (n : Z) (ls : list string)
        (vs : list double) (lf : option (list call)) (lw : bool) :
  short c = true ->
  parse_long (entered c) 10 = Some n ->
  (INT_MIN <= n < INT_MAX)%Z ->
  values ls vs ->
  (n = Z.of_nat (List.length ls) -> (0 < n)%Z ->
   forall rest,
     series_total (State (lines (c :: ls) ++ rest) lf lw)
     = (Val tt,
        append_log (Call "Resistors Series: n=%d -> Rt=%.6f ohm"
                         [AInt n; ADbl (added 0 vs)])
                   (State rest lf lw),
        Call "%s" [AStr "How many resistors? "]
          :: labels "R%d (ohms): " 1 (List.length ls)
          ++ [Call "R_total(series) = %.6f ohms\n" [ADbl (added 0 vs)]]))
  /\ ((n <= 0)%Z ->
      forall rest,
        series_total (State (lines (c :: ls) ++ rest) lf lw)
        = (Return, State (lines ls ++ rest) lf lw,
           [Call "%s" [AStr "How many resistors? "];
            Call "Count must be positive.\n" []]))
  /\ ((Z.of_nat (List.length ls) < n)%Z ->
      series_total (State (lines (c :: ls)) lf lw)
      = (Return, State "" lf lw,
         Call "%s" [AStr "How many resistors? "]
           :: labels "R%d (ohms): " 1 (S (List.length ls)))).
Proof.
  intros Hs Hp Hn Hv.
  assert (Hi : int_of_long n = n)
    by (apply int_of_long_id; unfold INT_MAX in *; lia).
  repeat split.
  - intros En Hpos rest. unfold series_total.
    rewrite (ask_int_lines _ c ls rest lf lw n _ Hs Hp), Hi.
    replace (n <=? 0)%Z with false by (symmetry; apply Z.leb_gt; lia).
    unfold reject_if.
    rewrite (bind_val (ret tt) _ _ (State (lines ls ++ rest) lf lw) tt [])
      by reflexivity.
    rewrite (bind_val (sum_inputs "R%d (ohms): " n) _ _
               (State rest lf lw) (added 0 vs)
               (labels "R%d (ohms): " 1 (List.length ls))).
    + unfold prepend, bind, printf, log_printf. simpl.
      reflexivity.
    + rewrite En. apply sum_inputs_lines; [exact Hv | lia].
  - intros Hneg rest. unfold series_total.
    rewrite (ask_int_lines _ c ls rest lf lw n _ Hs Hp), Hi.
    replace (n <=? 0)%Z with true by (symmetry; apply Z.leb_le; lia).
    reflexivity.
  - intros Hlt. unfold series_total.
    pose proof (fun k => @ask_int_lines unit "How many resistors? " c ls ""
                                        lf lw n k Hs Hp) as E.
    rewrite !string_app_empty in E. rewrite E, Hi. clear E.
    replace (n <=? 0)%Z with false by (symmetry; apply Z.leb_gt; lia).
    unfold reject_if.
    rewrite (bind_val (ret tt) _ _ (State (lines ls) lf lw) tt [])
      by reflexivity.
    unfold bind at 1.
    rewrite (sum_inputs_short "R%d (ohms): " n lf lw ls vs Hv) by lia.
    reflexivity.
Qed.

Lemma series_total_adds_witness :
  series_total (State (lines ["2"; "1.5"; "2.5"]%string ++ "left") None true)
  = (Val tt,
     append_log (Call "Resistors Series: n=%d -> Rt=%.6f ohm"
                      [AInt 2; ADbl (added 0 [1.5; 2.5])])
                (State "left" None true),
     Call "%s" [AStr "How many resistors? "]
       :: labels "R%d (ohms): " 1 2
       ++ [Call "R_total(series) = %.6f ohms\n" [ADbl (added 0 [1.5; 2.5])]]).
Proof.
  apply (proj1 (series_total_adds "2" 2 ["1.5"; "2.5"]%string [1.5; 2.5]
                  None true ltac:(reflexivity) ltac:(reflexivity)
                  ltac:(unfold INT_MIN, INT_MAX; lia)
                  ltac:(repeat constructor))).
  - reflexivity.
  - lia.
Defined.

(** ** Results on the screen and in the log file *)

Lemma recorded_one (m : M unit) (s : state) (d : double) :
  frame 1 m -> recorded m ->
  log_writable s = true ->
  In d (displayed (m s)) ->
  exists c, new_records s (m s) = [logged c] /\ In d (numbers_of c).
Proof.
  intros Hf Hr W Hd. destruct (Hr s W d Hd) as (c & Hc & Hn).
  exists c. split; [ | exact Hn].
  destruct (Hf s) as (_ & _ & (new & R & L) & _).
  unfold new_records in *. rewrite R in *.
  rewrite skipn_app, Nat.sub_diag, skipn_all in *. simpl in *.
  destruct new as [ | x [ | y new]]; simpl in *; [tauto | | lia].
  destruct Hc as [<- | []]. reflexivity.
Qed.

(** X12. No result is displayed without being given to [log_printf]:
    when the log file can be opened, a run of a formula module that
    displays a number adds one record to the file, and the number is an
    argument of the [log_printf] call that record comes from. The record
    is the first 255 bytes of what the call renders: the number itself may
    be cut off from the file when the values are long. *)
Theorem displayed_is_logged (c_exp c_log : double -> double) (m : M unit)
        (s : state) (d : double) :
  In m [menu_item_1; menu_item_2; menu_item_3; menu_item_4 c_exp c_log;
        menu_item_5] ->
  log_writable s = true ->
  In d (displayed (m s)) ->
  exists c, new_records s (m s) = [logged c] /\ In d (numbers_of c).
Proof.
  intros Hm. simpl in Hm.
  destruct Hm as [<- | [<- | [<- | [<- | [<- | []]]]]]; apply recorded_one;
    auto using frame_menu_item_1, frame_menu_item_2, frame_menu_item_3,
      frame_menu_item_4, frame_menu_item_5, recorded_menu_item_1,
      recorded_menu_item_2, recorded_menu_item_3, recorded_menu_item_4,
      recorded_menu_item_5.
Qed.

Lemma displayed_is_logged_witness :
  exists c,
    new_records (start (lines ["1"; "2"; "3"]%string))
                (menu_item_5 (start (lines ["1"; "2"; "3"]%string)))
    = [logged c]
    /\ In 6 (numbers_of c).
Proof.
  apply (displayed_is_logged some_libm some_libm menu_item_5
           (start (lines ["1"; "2"; "3"]%string)) 6).
  - do 4 right. left. reflexivity.
  - reflexivity.
  - left. reflexivity.
Defined.

(** ** Leaving the program *)




(** * The guards and what is displayed *)




Section Sound.

Variables c_exp c_log : double -> double.








End Sound.








(** *** The log file plays no part in what is displayed *)






























